(** * Signaling client of the video-call application

    A shallow embedding of the browser client
    ([frontend/src/components/VideoCall.js], [frontend/src/utils/api.js]):
    the peer-negotiation handlers, the reconnection controller, screen
    sharing, teardown and the room lookup.

    The component keeps its state in React refs and state cells and in
    objects owned by the browser (tracks, peer connections, sockets,
    timers).  Those objects are shared and mutated in place, so they live
    in stores indexed by allocation order, and the refs hold indices.
    Every handler is a function on that state.  An [async] handler is run
    to completion: its awaited browser calls are answered by an oracle
    ([Engine]) or by an explicit outcome argument. *)

From stdpp Require Import gmap strings list fin_maps pretty.
From Stdlib Require Import ZArith.

Open Scope Z_scope.

(** ** JavaScript values used by the handlers *)

(** An identity read from a message is a string or [undefined]. *)
Definition truthy (v : option string) : bool :=
  match v with
  | Some s => negb (String.eqb s "")
  | None => false
  end.

(** [a || b] on such values. *)
Definition jsOr (a b : option string) : option string :=
  if truthy a then a else b.

(** [hay.includes(needle)] *)
Fixpoint includes (needle hay : string) : bool :=
  String.prefix needle hay ||
  match hay with
  | EmptyString => false
  | String _ rest => includes needle rest
  end.

(** ** Signaling messages *)

(** The payload object of a message, with the fields the client reads or
    writes.  A field that is absent reads as [undefined] ([None]). *)
Record DataObj := mkData {
  d_sdp : option string;
  d_type : option string;
  d_candidate : option string;
  d_sdpMLineIndex : option Z;
  d_sdpMid : option string;
  d_participants : option (list string);
  d_user_id : option string;
  d_emoji : option string;
  d_muted : option bool;
  d_message : option string
}.

Inductive JsData :=
  | DUndefined
  | DString (s : string)
  | DObject (o : DataObj).

(** The envelope [{type, room_id, sender_id?, user_id?, data?}]. *)
Record Message := mkMessage {
  type : string;
  room_id : option string;
  sender_id : option string;
  user_id : option string;
  data : JsData
}.

(** [data?.field] *)
Definition optField {A} (f : DataObj -> option A) (d : JsData) : option A :=
  match d with
  | DObject o => f o
  | _ => None
  end.

(** ** Objects owned by the browser *)

Inductive TrackKind := Audio | Video.
Inductive TrackSource := Camera | Microphone | Display.

(** A [MediaStreamTrack].  [ended] is its [readyState === 'ended'];
    [hasOnEnded] tells whether the screen-share [onended] handler is
    installed on it. *)
Record Track := mkTrack {
  kind : TrackKind;
  source : TrackSource;
  ended : bool;
  hasOnEnded : bool
}.

Record SessionDescription := mkDesc {
  sd_sdp : option string;
  sd_type : option string
}.

Record IceCandidate := mkIce {
  candidate : option string;
  sdpMLineIndex : option Z;
  sdpMid : option string
}.

(** An [RTCPeerConnection]: the identity its handlers were created for,
    the track of each of its senders (an index into the track store), the
    descriptions set so far, the candidates it accepted, and whether
    [close()] was called. *)
Record PeerConnection := mkPc {
  pcUser : option string;
  senders : list (option nat);
  localDescription : option SessionDescription;
  remoteDescription : option SessionDescription;
  iceCandidates : list IceCandidate;
  pcClosed : bool
}.

Inductive ReadyState := CONNECTING | OPEN | CLOSING | CLOSED.

(** A [WebSocket]: the url suffix (the room), its ready state, the
    [userId] property the client stores on it, and the frames sent. *)
Record WebSocket := mkWs {
  wsRoom : string;
  readyState : ReadyState;
  userId : option string;
  sent : list Message
}.

(** The texts passed to [setError]. *)
Inductive UiError :=
  | ErrMediaAccess (message : string)
  | ErrRoomIdMissing
  | ErrRoomDoesNotExist (room : string)
  | ErrConnectFailed
  | ErrInitFailed (message : string).

#[global] Instance TrackKind_eq_dec : EqDecision TrackKind.
Proof. solve_decision. Defined.
#[global] Instance ReadyState_eq_dec : EqDecision ReadyState.
Proof. solve_decision. Defined.

(** ** The state of one mounted [VideoCall] component *)

Record State := mkState {
  (* browser objects *)
  tracks : list Track;
  pcs : list PeerConnection;
  sockets : list WebSocket;
  timers : gmap positive Z;        (* pending reconnection timeouts: id to delay *)
  nextTimerId : positive;
  (* refs and effect-local variables *)
  wsRef : option nat;
  peersRef : gmap (option string) nat;
  localStreamRef : option (list nat);
  reconnectTimeoutRef : option positive;
  reconnectAttemptsRef : Z;
  isMounted : bool;
  initialized : bool;
  (* React state *)
  isConnected : bool;
  isLoading : bool;
  isScreenSharing : bool;
  showScreenShareWarning : bool;
  error : option UiError;
  remoteStreams : gmap (option string) (list nat);
  remoteMuteStatus : gmap (option string) bool;
  remoteUsernames : gmap (option string) string;
  floatingEmojis : list string;
  alerts : list string
}.

Definition set_tracks (v : list Track) (s : State) : State :=
  {| tracks := v; pcs := pcs s; sockets := sockets s; timers := timers s; nextTimerId :=
     nextTimerId s; wsRef := wsRef s; peersRef := peersRef s; localStreamRef :=
     localStreamRef s; reconnectTimeoutRef := reconnectTimeoutRef s;
     reconnectAttemptsRef := reconnectAttemptsRef s; isMounted := isMounted s;
     initialized := initialized s; isConnected := isConnected s; isLoading := isLoading
     s; isScreenSharing := isScreenSharing s; showScreenShareWarning :=
     showScreenShareWarning s; error := error s; remoteStreams := remoteStreams s;
     remoteMuteStatus := remoteMuteStatus s; remoteUsernames := remoteUsernames s;
     floatingEmojis := floatingEmojis s; alerts := alerts s |}.

Definition set_pcs (v : list PeerConnection) (s : State) : State :=
  {| tracks := tracks s; pcs := v; sockets := sockets s; timers := timers s; nextTimerId
     := nextTimerId s; wsRef := wsRef s; peersRef := peersRef s; localStreamRef :=
     localStreamRef s; reconnectTimeoutRef := reconnectTimeoutRef s;
     reconnectAttemptsRef := reconnectAttemptsRef s; isMounted := isMounted s;
     initialized := initialized s; isConnected := isConnected s; isLoading := isLoading
     s; isScreenSharing := isScreenSharing s; showScreenShareWarning :=
     showScreenShareWarning s; error := error s; remoteStreams := remoteStreams s;
     remoteMuteStatus := remoteMuteStatus s; remoteUsernames := remoteUsernames s;
     floatingEmojis := floatingEmojis s; alerts := alerts s |}.

Definition set_sockets (v : list WebSocket) (s : State) : State :=
  {| tracks := tracks s; pcs := pcs s; sockets := v; timers := timers s; nextTimerId :=
     nextTimerId s; wsRef := wsRef s; peersRef := peersRef s; localStreamRef :=
     localStreamRef s; reconnectTimeoutRef := reconnectTimeoutRef s;
     reconnectAttemptsRef := reconnectAttemptsRef s; isMounted := isMounted s;
     initialized := initialized s; isConnected := isConnected s; isLoading := isLoading
     s; isScreenSharing := isScreenSharing s; showScreenShareWarning :=
     showScreenShareWarning s; error := error s; remoteStreams := remoteStreams s;
     remoteMuteStatus := remoteMuteStatus s; remoteUsernames := remoteUsernames s;
     floatingEmojis := floatingEmojis s; alerts := alerts s |}.

Definition set_timers (v : gmap positive Z) (s : State) : State :=
  {| tracks := tracks s; pcs := pcs s; sockets := sockets s; timers := v; nextTimerId :=
     nextTimerId s; wsRef := wsRef s; peersRef := peersRef s; localStreamRef :=
     localStreamRef s; reconnectTimeoutRef := reconnectTimeoutRef s;
     reconnectAttemptsRef := reconnectAttemptsRef s; isMounted := isMounted s;
     initialized := initialized s; isConnected := isConnected s; isLoading := isLoading
     s; isScreenSharing := isScreenSharing s; showScreenShareWarning :=
     showScreenShareWarning s; error := error s; remoteStreams := remoteStreams s;
     remoteMuteStatus := remoteMuteStatus s; remoteUsernames := remoteUsernames s;
     floatingEmojis := floatingEmojis s; alerts := alerts s |}.

Definition set_nextTimerId (v : positive) (s : State) : State :=
  {| tracks := tracks s; pcs := pcs s; sockets := sockets s; timers := timers s;
     nextTimerId := v; wsRef := wsRef s; peersRef := peersRef s; localStreamRef :=
     localStreamRef s; reconnectTimeoutRef := reconnectTimeoutRef s;
     reconnectAttemptsRef := reconnectAttemptsRef s; isMounted := isMounted s;
     initialized := initialized s; isConnected := isConnected s; isLoading := isLoading
     s; isScreenSharing := isScreenSharing s; showScreenShareWarning :=
     showScreenShareWarning s; error := error s; remoteStreams := remoteStreams s;
     remoteMuteStatus := remoteMuteStatus s; remoteUsernames := remoteUsernames s;
     floatingEmojis := floatingEmojis s; alerts := alerts s |}.

Definition set_wsRef (v : option nat) (s : State) : State :=
  {| tracks := tracks s; pcs := pcs s; sockets := sockets s; timers := timers s;
     nextTimerId := nextTimerId s; wsRef := v; peersRef := peersRef s; localStreamRef :=
     localStreamRef s; reconnectTimeoutRef := reconnectTimeoutRef s;
     reconnectAttemptsRef := reconnectAttemptsRef s; isMounted := isMounted s;
     initialized := initialized s; isConnected := isConnected s; isLoading := isLoading
     s; isScreenSharing := isScreenSharing s; showScreenShareWarning :=
     showScreenShareWarning s; error := error s; remoteStreams := remoteStreams s;
     remoteMuteStatus := remoteMuteStatus s; remoteUsernames := remoteUsernames s;
     floatingEmojis := floatingEmojis s; alerts := alerts s |}.

Definition set_peersRef (v : gmap (option string) nat) (s : State) : State :=
  {| tracks := tracks s; pcs := pcs s; sockets := sockets s; timers := timers s;
     nextTimerId := nextTimerId s; wsRef := wsRef s; peersRef := v; localStreamRef :=
     localStreamRef s; reconnectTimeoutRef := reconnectTimeoutRef s;
     reconnectAttemptsRef := reconnectAttemptsRef s; isMounted := isMounted s;
     initialized := initialized s; isConnected := isConnected s; isLoading := isLoading
     s; isScreenSharing := isScreenSharing s; showScreenShareWarning :=
     showScreenShareWarning s; error := error s; remoteStreams := remoteStreams s;
     remoteMuteStatus := remoteMuteStatus s; remoteUsernames := remoteUsernames s;
     floatingEmojis := floatingEmojis s; alerts := alerts s |}.

Definition set_localStreamRef (v : option (list nat)) (s : State) : State :=
  {| tracks := tracks s; pcs := pcs s; sockets := sockets s; timers := timers s;
     nextTimerId := nextTimerId s; wsRef := wsRef s; peersRef := peersRef s;
     localStreamRef := v; reconnectTimeoutRef := reconnectTimeoutRef s;
     reconnectAttemptsRef := reconnectAttemptsRef s; isMounted := isMounted s;
     initialized := initialized s; isConnected := isConnected s; isLoading := isLoading
     s; isScreenSharing := isScreenSharing s; showScreenShareWarning :=
     showScreenShareWarning s; error := error s; remoteStreams := remoteStreams s;
     remoteMuteStatus := remoteMuteStatus s; remoteUsernames := remoteUsernames s;
     floatingEmojis := floatingEmojis s; alerts := alerts s |}.

Definition set_reconnectTimeoutRef (v : option positive) (s : State) : State :=
  {| tracks := tracks s; pcs := pcs s; sockets := sockets s; timers := timers s;
     nextTimerId := nextTimerId s; wsRef := wsRef s; peersRef := peersRef s;
     localStreamRef := localStreamRef s; reconnectTimeoutRef := v; reconnectAttemptsRef
     := reconnectAttemptsRef s; isMounted := isMounted s; initialized := initialized s;
     isConnected := isConnected s; isLoading := isLoading s; isScreenSharing :=
     isScreenSharing s; showScreenShareWarning := showScreenShareWarning s; error :=
     error s; remoteStreams := remoteStreams s; remoteMuteStatus := remoteMuteStatus s;
     remoteUsernames := remoteUsernames s; floatingEmojis := floatingEmojis s; alerts :=
     alerts s |}.

Definition set_reconnectAttemptsRef (v : Z) (s : State) : State :=
  {| tracks := tracks s; pcs := pcs s; sockets := sockets s; timers := timers s;
     nextTimerId := nextTimerId s; wsRef := wsRef s; peersRef := peersRef s;
     localStreamRef := localStreamRef s; reconnectTimeoutRef := reconnectTimeoutRef s;
     reconnectAttemptsRef := v; isMounted := isMounted s; initialized := initialized s;
     isConnected := isConnected s; isLoading := isLoading s; isScreenSharing :=
     isScreenSharing s; showScreenShareWarning := showScreenShareWarning s; error :=
     error s; remoteStreams := remoteStreams s; remoteMuteStatus := remoteMuteStatus s;
     remoteUsernames := remoteUsernames s; floatingEmojis := floatingEmojis s; alerts :=
     alerts s |}.

Definition set_isMounted (v : bool) (s : State) : State :=
  {| tracks := tracks s; pcs := pcs s; sockets := sockets s; timers := timers s;
     nextTimerId := nextTimerId s; wsRef := wsRef s; peersRef := peersRef s;
     localStreamRef := localStreamRef s; reconnectTimeoutRef := reconnectTimeoutRef s;
     reconnectAttemptsRef := reconnectAttemptsRef s; isMounted := v; initialized :=
     initialized s; isConnected := isConnected s; isLoading := isLoading s;
     isScreenSharing := isScreenSharing s; showScreenShareWarning :=
     showScreenShareWarning s; error := error s; remoteStreams := remoteStreams s;
     remoteMuteStatus := remoteMuteStatus s; remoteUsernames := remoteUsernames s;
     floatingEmojis := floatingEmojis s; alerts := alerts s |}.

Definition set_initialized (v : bool) (s : State) : State :=
  {| tracks := tracks s; pcs := pcs s; sockets := sockets s; timers := timers s;
     nextTimerId := nextTimerId s; wsRef := wsRef s; peersRef := peersRef s;
     localStreamRef := localStreamRef s; reconnectTimeoutRef := reconnectTimeoutRef s;
     reconnectAttemptsRef := reconnectAttemptsRef s; isMounted := isMounted s;
     initialized := v; isConnected := isConnected s; isLoading := isLoading s;
     isScreenSharing := isScreenSharing s; showScreenShareWarning :=
     showScreenShareWarning s; error := error s; remoteStreams := remoteStreams s;
     remoteMuteStatus := remoteMuteStatus s; remoteUsernames := remoteUsernames s;
     floatingEmojis := floatingEmojis s; alerts := alerts s |}.

Definition set_isConnected (v : bool) (s : State) : State :=
  {| tracks := tracks s; pcs := pcs s; sockets := sockets s; timers := timers s;
     nextTimerId := nextTimerId s; wsRef := wsRef s; peersRef := peersRef s;
     localStreamRef := localStreamRef s; reconnectTimeoutRef := reconnectTimeoutRef s;
     reconnectAttemptsRef := reconnectAttemptsRef s; isMounted := isMounted s;
     initialized := initialized s; isConnected := v; isLoading := isLoading s;
     isScreenSharing := isScreenSharing s; showScreenShareWarning :=
     showScreenShareWarning s; error := error s; remoteStreams := remoteStreams s;
     remoteMuteStatus := remoteMuteStatus s; remoteUsernames := remoteUsernames s;
     floatingEmojis := floatingEmojis s; alerts := alerts s |}.

Definition set_isLoading (v : bool) (s : State) : State :=
  {| tracks := tracks s; pcs := pcs s; sockets := sockets s; timers := timers s;
     nextTimerId := nextTimerId s; wsRef := wsRef s; peersRef := peersRef s;
     localStreamRef := localStreamRef s; reconnectTimeoutRef := reconnectTimeoutRef s;
     reconnectAttemptsRef := reconnectAttemptsRef s; isMounted := isMounted s;
     initialized := initialized s; isConnected := isConnected s; isLoading := v;
     isScreenSharing := isScreenSharing s; showScreenShareWarning :=
     showScreenShareWarning s; error := error s; remoteStreams := remoteStreams s;
     remoteMuteStatus := remoteMuteStatus s; remoteUsernames := remoteUsernames s;
     floatingEmojis := floatingEmojis s; alerts := alerts s |}.

Definition set_isScreenSharing (v : bool) (s : State) : State :=
  {| tracks := tracks s; pcs := pcs s; sockets := sockets s; timers := timers s;
     nextTimerId := nextTimerId s; wsRef := wsRef s; peersRef := peersRef s;
     localStreamRef := localStreamRef s; reconnectTimeoutRef := reconnectTimeoutRef s;
     reconnectAttemptsRef := reconnectAttemptsRef s; isMounted := isMounted s;
     initialized := initialized s; isConnected := isConnected s; isLoading := isLoading
     s; isScreenSharing := v; showScreenShareWarning := showScreenShareWarning s; error
     := error s; remoteStreams := remoteStreams s; remoteMuteStatus := remoteMuteStatus
     s; remoteUsernames := remoteUsernames s; floatingEmojis := floatingEmojis s; alerts
     := alerts s |}.

Definition set_showScreenShareWarning (v : bool) (s : State) : State :=
  {| tracks := tracks s; pcs := pcs s; sockets := sockets s; timers := timers s;
     nextTimerId := nextTimerId s; wsRef := wsRef s; peersRef := peersRef s;
     localStreamRef := localStreamRef s; reconnectTimeoutRef := reconnectTimeoutRef s;
     reconnectAttemptsRef := reconnectAttemptsRef s; isMounted := isMounted s;
     initialized := initialized s; isConnected := isConnected s; isLoading := isLoading
     s; isScreenSharing := isScreenSharing s; showScreenShareWarning := v; error :=
     error s; remoteStreams := remoteStreams s; remoteMuteStatus := remoteMuteStatus s;
     remoteUsernames := remoteUsernames s; floatingEmojis := floatingEmojis s; alerts :=
     alerts s |}.

Definition set_error (v : option UiError) (s : State) : State :=
  {| tracks := tracks s; pcs := pcs s; sockets := sockets s; timers := timers s;
     nextTimerId := nextTimerId s; wsRef := wsRef s; peersRef := peersRef s;
     localStreamRef := localStreamRef s; reconnectTimeoutRef := reconnectTimeoutRef s;
     reconnectAttemptsRef := reconnectAttemptsRef s; isMounted := isMounted s;
     initialized := initialized s; isConnected := isConnected s; isLoading := isLoading
     s; isScreenSharing := isScreenSharing s; showScreenShareWarning :=
     showScreenShareWarning s; error := v; remoteStreams := remoteStreams s;
     remoteMuteStatus := remoteMuteStatus s; remoteUsernames := remoteUsernames s;
     floatingEmojis := floatingEmojis s; alerts := alerts s |}.

Definition set_remoteStreams (v : gmap (option string) (list nat)) (s : State) : State :=
  {| tracks := tracks s; pcs := pcs s; sockets := sockets s; timers := timers s;
     nextTimerId := nextTimerId s; wsRef := wsRef s; peersRef := peersRef s;
     localStreamRef := localStreamRef s; reconnectTimeoutRef := reconnectTimeoutRef s;
     reconnectAttemptsRef := reconnectAttemptsRef s; isMounted := isMounted s;
     initialized := initialized s; isConnected := isConnected s; isLoading := isLoading
     s; isScreenSharing := isScreenSharing s; showScreenShareWarning :=
     showScreenShareWarning s; error := error s; remoteStreams := v; remoteMuteStatus :=
     remoteMuteStatus s; remoteUsernames := remoteUsernames s; floatingEmojis :=
     floatingEmojis s; alerts := alerts s |}.

Definition set_remoteMuteStatus (v : gmap (option string) bool) (s : State) : State :=
  {| tracks := tracks s; pcs := pcs s; sockets := sockets s; timers := timers s;
     nextTimerId := nextTimerId s; wsRef := wsRef s; peersRef := peersRef s;
     localStreamRef := localStreamRef s; reconnectTimeoutRef := reconnectTimeoutRef s;
     reconnectAttemptsRef := reconnectAttemptsRef s; isMounted := isMounted s;
     initialized := initialized s; isConnected := isConnected s; isLoading := isLoading
     s; isScreenSharing := isScreenSharing s; showScreenShareWarning :=
     showScreenShareWarning s; error := error s; remoteStreams := remoteStreams s;
     remoteMuteStatus := v; remoteUsernames := remoteUsernames s; floatingEmojis :=
     floatingEmojis s; alerts := alerts s |}.

Definition set_remoteUsernames (v : gmap (option string) string) (s : State) : State :=
  {| tracks := tracks s; pcs := pcs s; sockets := sockets s; timers := timers s;
     nextTimerId := nextTimerId s; wsRef := wsRef s; peersRef := peersRef s;
     localStreamRef := localStreamRef s; reconnectTimeoutRef := reconnectTimeoutRef s;
     reconnectAttemptsRef := reconnectAttemptsRef s; isMounted := isMounted s;
     initialized := initialized s; isConnected := isConnected s; isLoading := isLoading
     s; isScreenSharing := isScreenSharing s; showScreenShareWarning :=
     showScreenShareWarning s; error := error s; remoteStreams := remoteStreams s;
     remoteMuteStatus := remoteMuteStatus s; remoteUsernames := v; floatingEmojis :=
     floatingEmojis s; alerts := alerts s |}.

Definition set_floatingEmojis (v : list string) (s : State) : State :=
  {| tracks := tracks s; pcs := pcs s; sockets := sockets s; timers := timers s;
     nextTimerId := nextTimerId s; wsRef := wsRef s; peersRef := peersRef s;
     localStreamRef := localStreamRef s; reconnectTimeoutRef := reconnectTimeoutRef s;
     reconnectAttemptsRef := reconnectAttemptsRef s; isMounted := isMounted s;
     initialized := initialized s; isConnected := isConnected s; isLoading := isLoading
     s; isScreenSharing := isScreenSharing s; showScreenShareWarning :=
     showScreenShareWarning s; error := error s; remoteStreams := remoteStreams s;
     remoteMuteStatus := remoteMuteStatus s; remoteUsernames := remoteUsernames s;
     floatingEmojis := v; alerts := alerts s |}.

Definition set_alerts (v : list string) (s : State) : State :=
  {| tracks := tracks s; pcs := pcs s; sockets := sockets s; timers := timers s;
     nextTimerId := nextTimerId s; wsRef := wsRef s; peersRef := peersRef s;
     localStreamRef := localStreamRef s; reconnectTimeoutRef := reconnectTimeoutRef s;
     reconnectAttemptsRef := reconnectAttemptsRef s; isMounted := isMounted s;
     initialized := initialized s; isConnected := isConnected s; isLoading := isLoading
     s; isScreenSharing := isScreenSharing s; showScreenShareWarning :=
     showScreenShareWarning s; error := error s; remoteStreams := remoteStreams s;
     remoteMuteStatus := remoteMuteStatus s; remoteUsernames := remoteUsernames s;
     floatingEmojis := floatingEmojis s; alerts := v |}.

(** Field updates of the browser objects. *)
Definition pc_setLocal (d : SessionDescription) (pc : PeerConnection) : PeerConnection :=
  mkPc (pcUser pc) (senders pc) (Some d) (remoteDescription pc) (iceCandidates pc)
       (pcClosed pc).

Definition pc_setRemote (d : SessionDescription) (pc : PeerConnection) : PeerConnection :=
  mkPc (pcUser pc) (senders pc) (localDescription pc) (Some d) (iceCandidates pc)
       (pcClosed pc).

Definition pc_addCandidate (c : IceCandidate) (pc : PeerConnection) : PeerConnection :=
  mkPc (pcUser pc) (senders pc) (localDescription pc) (remoteDescription pc)
       (iceCandidates pc ++ [c]) (pcClosed pc).

Definition pc_setSenders (l : list (option nat)) (pc : PeerConnection) : PeerConnection :=
  mkPc (pcUser pc) l (localDescription pc) (remoteDescription pc) (iceCandidates pc)
       (pcClosed pc).

Definition pc_close (pc : PeerConnection) : PeerConnection :=
  mkPc (pcUser pc) (senders pc) (localDescription pc) (remoteDescription pc)
       (iceCandidates pc) true.

Definition ws_setReadyState (r : ReadyState) (ws : WebSocket) : WebSocket :=
  mkWs (wsRoom ws) r (userId ws) (sent ws).

Definition ws_setUserId (u : option string) (ws : WebSocket) : WebSocket :=
  mkWs (wsRoom ws) (readyState ws) u (sent ws).

(** [ws.send(JSON.stringify(m))] *)
Definition ws_send (m : Message) (ws : WebSocket) : WebSocket :=
  mkWs (wsRoom ws) (readyState ws) (userId ws) (sent ws ++ [m]).

(** [ws.close()]: a socket that is connecting or open starts closing; the
    close event arrives later, through [ws_onclose]. *)
Definition ws_close (ws : WebSocket) : WebSocket :=
  match readyState ws with
  | CONNECTING | OPEN => ws_setReadyState CLOSING ws
  | _ => ws
  end.

(** [track.stop()] *)
Definition track_stop (t : Track) : Track :=
  mkTrack (kind t) (source t) true (hasOnEnded t).

Definition track_setOnEnded (t : Track) : Track :=
  mkTrack (kind t) (source t) (ended t) true.

(** ** The WebRTC engine

    The asynchronous calls on a peer connection succeed or reject as the
    browser decides.  [None] and [false] stand for a rejected promise (or
    a constructor that throws inside the same [try]); the handlers catch
    it and log. *)
Record Engine := mkEngine {
  createOffer : PeerConnection -> option SessionDescription;
  createAnswer : PeerConnection -> option SessionDescription;
  setLocalDescription : PeerConnection -> SessionDescription -> bool;
  setRemoteDescription : PeerConnection -> SessionDescription -> bool;
  addIceCandidate : PeerConnection -> IceCandidate -> bool
}.

(** The props of the component. *)
Record Props := mkProps {
  roomId : string;
  username : string
}.

Definition maxReconnectAttempts : Z := 5.

Section Client.

Context (props : Props) (eng : Engine).

(** [wsRef.current], as the socket object. *)
Definition currentSocket (s : State) : option WebSocket :=
  i ← wsRef s; sockets s !! i.

(** [wsRef.current?.userId].  An identity that is not a string compares
    unequal to every string, as [undefined] does, and is kept as [None]. *)
Definition myUserId (s : State) : option string :=
  ws ← currentSocket s; userId ws.

Definition updatePc (i : nat) (f : PeerConnection -> PeerConnection) (s : State) : State :=
  set_pcs (alter f i (pcs s)) s.

Definition updateSocket (i : nat) (f : WebSocket -> WebSocket) (s : State) : State :=
  set_sockets (alter f i (sockets s)) s.

(** [createPeerConnection(userId)]: a new connection with one sender per
    local track, stored in the peer map under [userId]. *)
Definition newPeerConnection (uid : option string) (s : State) : PeerConnection :=
  mkPc uid
       (match localStreamRef s with
        | Some ts => Some <$> ts
        | None => []
        end)
       None None [] false.

Definition createPeerConnection (uid : option string) (s : State) : nat * State :=
  let i := length (pcs s) in
  (i, set_peersRef (<[uid := i]> (peersRef s))
        (set_pcs (pcs s ++ [newPeerConnection uid s]) s)).

(** [peerConnection.ontrack] of the connection created for [uid]:
    [event.streams[0]], when there is one, becomes the remote stream. *)
Definition pc_ontrack (uid : option string) (streams : list (list nat)) (s : State) : State :=
  match streams with
  | remoteStream :: _ => set_remoteStreams (<[uid := remoteStream]> (remoteStreams s)) s
  | [] => s
  end.

(** [sendSignalingMessage(message)]: sent only on an open socket. *)
Definition sendSignalingMessage (m : Message) (s : State) : State :=
  match wsRef s with
  | Some i =>
      match sockets s !! i with
      | Some ws =>
          if decide (readyState ws = OPEN) then updateSocket i (ws_send m) s else s
      | None => s
      end
  | None => s
  end.

(** [peerConnection.onicecandidate]: a discovered candidate is sent to
    the room; the end-of-candidates event ([None]) is ignored. *)
Definition pc_onicecandidate (c : option IceCandidate) (s : State) : State :=
  match c with
  | Some c =>
      sendSignalingMessage
        (mkMessage "ice-candidate" (Some (roomId props)) None None
           (DObject (mkData None None (candidate c) (sdpMLineIndex c) (sdpMid c)
                            None None None None None))) s
  | None => s
  end.

Definition descriptionMessage (ty : string) (d : SessionDescription) : Message :=
  mkMessage ty (Some (roomId props)) None None
    (DObject (mkData (sd_sdp d) (sd_type d) None None None None None None None None)).

(** [createOffer], [setLocalDescription], send the offer; a rejection at
    any step is caught and leaves what was done before it. *)
Definition sendOffer (i : nat) (s : State) : State :=
  match pcs s !! i with
  | None => s
  | Some pc =>
      match createOffer eng pc with
      | None => s
      | Some offer =>
          if setLocalDescription eng pc offer
          then sendSignalingMessage (descriptionMessage "offer" offer)
                 (updatePc i (pc_setLocal offer) s)
          else s
      end
  end.

(** [new RTCSessionDescription(data)] *)
Definition sessionDescriptionOf (d : JsData) : SessionDescription :=
  mkDesc (optField d_sdp d) (optField d_type d).

(** [setRemoteDescription], [createAnswer], [setLocalDescription], send
    the answer. *)
Definition sendAnswer (i : nat) (d : JsData) (s : State) : State :=
  match pcs s !! i with
  | None => s
  | Some pc =>
      let remote := sessionDescriptionOf d in
      if setRemoteDescription eng pc remote then
        let pc1 := pc_setRemote remote pc in
        let s1 := updatePc i (pc_setRemote remote) s in
        match createAnswer eng pc1 with
        | None => s1
        | Some answer =>
            if setLocalDescription eng pc1 answer
            then sendSignalingMessage (descriptionMessage "answer" answer)
                   (updatePc i (pc_setLocal answer) s1)
            else s1
        end
      else s
  end.

(** [user_id || sender_id || message.user_id]: the identity a
    ['user-joined'] message announces. *)
Definition joinedUserId (m : Message) : option string :=
  jsOr (user_id m) (jsOr (sender_id m) (user_id m)).

(** case ['user-joined'] *)
Definition handleUserJoined (m : Message) (s : State) : State :=
  if negb (truthy (joinedUserId m)) then s
  else if decide (joinedUserId m = myUserId s) then s
  else if decide (is_Some (peersRef s !! joinedUserId m)) then s
  else let '(i, s1) := createPeerConnection (joinedUserId m) s in sendOffer i s1.

(** case ['offer'] *)
Definition handleOffer (m : Message) (s : State) : State :=
  match peersRef s !! sender_id m with
  | Some i => sendAnswer i (data m) s
  | None =>
      let '(i, s1) := createPeerConnection (sender_id m) s in
      sendAnswer i (data m) s1
  end.

(** case ['answer'] *)
Definition handleAnswer (m : Message) (s : State) : State :=
  match peersRef s !! sender_id m with
  | Some i =>
      match pcs s !! i with
      | Some pc =>
          let remote := sessionDescriptionOf (data m) in
          if setRemoteDescription eng pc remote
          then updatePc i (pc_setRemote remote) s
          else s
      | None => s
      end
  | None => s
  end.

(** case ['ice-candidate'].  Reading [data.candidate] of an undefined
    [data] throws inside the [try]. *)
Definition handleIceCandidate (m : Message) (s : State) : State :=
  match peersRef s !! sender_id m with
  | Some i =>
      match pcs s !! i, data m with
      | Some pc, DObject o =>
          let c := mkIce (d_candidate o) (d_sdpMLineIndex o) (d_sdpMid o) in
          if addIceCandidate eng pc c then updatePc i (pc_addCandidate c) s else s
      | Some pc, DString _ =>
          let c := mkIce None None None in
          if addIceCandidate eng pc c then updatePc i (pc_addCandidate c) s else s
      | _, _ => s
      end
  | None => s
  end.

(** case ['user-left'] *)
Definition handleUserLeft (m : Message) (s : State) : State :=
  let s1 :=
    match peersRef s !! sender_id m with
    | Some i => set_peersRef (delete (sender_id m) (peersRef s)) (updatePc i pc_close s)
    | None => s
    end in
  set_remoteUsernames (delete (sender_id m) (remoteUsernames s1))
    (set_remoteMuteStatus (delete (sender_id m) (remoteMuteStatus s1))
       (set_remoteStreams (delete (sender_id m) (remoteStreams s1)) s1)).

(** [data?.user_id || data] *)
Definition connectedIdentity (d : JsData) : option string :=
  match d with
  | DUndefined => None
  | DString str => Some str
  | DObject o => if truthy (d_user_id o) then d_user_id o else None
  end.

(** case ['connected'] *)
Definition handleConnected (m : Message) (s : State) : State :=
  let s1 :=
    match wsRef s with
    | Some i => updateSocket i (ws_setUserId (connectedIdentity (data m))) s
    | None => s
    end in
  set_isLoading false (set_reconnectAttemptsRef 0 (set_isConnected true s1)).

(** One entry of the ['existing-participants'] enumeration. *)
Definition existingParticipant (s : State) (existingUserId : string) : State :=
  if decide (Some existingUserId = myUserId s) then s
  else if decide (is_Some (peersRef s !! Some existingUserId)) then s
  else let '(i, s1) := createPeerConnection (Some existingUserId) s in sendOffer i s1.

(** case ['existing-participants'].  The entries are taken in order, and
    the awaited steps of one entry are run before the next entry starts;
    in the browser the connections are all created first, in the same
    order, and the offers follow.  No connection depends on the
    difference. *)
Definition handleExistingParticipants (m : Message) (s : State) : State :=
  match optField d_participants (data m) with
  | Some ps => foldl existingParticipant s ps
  | None => s
  end.

(** case ['join'] *)
Definition handleJoin (m : Message) (s : State) : State :=
  match user_id m with
  | Some name =>
      if truthy (sender_id m) && truthy (user_id m)
         && negb (bool_decide (sender_id m = myUserId s))
      then set_remoteUsernames (<[sender_id m := name]> (remoteUsernames s)) s
      else s
  | None => s
  end.

(** case ['emoji']: the floating emoji is shown; its random id and the
    timer that removes it after the animation are cosmetic and left out. *)
Definition handleEmoji (m : Message) (s : State) : State :=
  match optField d_emoji (data m) with
  | Some e => if truthy (Some e) then set_floatingEmojis (floatingEmojis s ++ [e]) s else s
  | None => s
  end.

(** case ['mute-status'] *)
Definition handleMuteStatus (m : Message) (s : State) : State :=
  if truthy (sender_id m) && negb (bool_decide (sender_id m = myUserId s))
  then set_remoteMuteStatus
         (<[sender_id m := default false (optField d_muted (data m))]> (remoteMuteStatus s)) s
  else s.

(** The guard at the top of [handleSignalingMessage]. *)
Definition fromSelf (m : Message) (s : State) : bool :=
  let actualSenderId := jsOr (sender_id m) (user_id m) in
  truthy actualSenderId && bool_decide (actualSenderId = myUserId s)
  && negb (String.eqb (type m) "user-joined")
  && negb (String.eqb (type m) "existing-participants")
  && negb (String.eqb (type m) "connected").

Definition handleSignalingMessage (m : Message) (s : State) : State :=
  if fromSelf m s then s
  else if String.eqb (type m) "user-joined" then handleUserJoined m s
  else if String.eqb (type m) "offer" then handleOffer m s
  else if String.eqb (type m) "answer" then handleAnswer m s
  else if String.eqb (type m) "ice-candidate" then handleIceCandidate m s
  else if String.eqb (type m) "user-left" then handleUserLeft m s
  else if String.eqb (type m) "connected" then handleConnected m s
  else if String.eqb (type m) "existing-participants" then handleExistingParticipants m s
  else if String.eqb (type m) "join" then handleJoin m s
  else if String.eqb (type m) "emoji" then handleEmoji m s
  else if String.eqb (type m) "mute-status" then handleMuteStatus m s
  else s (* 'error' and unknown types are only logged *).

(** ** Reconnection controller *)

(** [connectWebSocket()]: an open socket is closed and dropped, then a new
    socket for the room is created and stored in [wsRef]. *)
Definition connectWebSocket (s : State) : State :=
  let s1 :=
    match wsRef s with
    | Some i =>
        match sockets s !! i with
        | Some ws =>
            if decide (readyState ws = OPEN)
            then set_wsRef None (updateSocket i ws_close s)
            else s
        | None => s
        end
    | None => s
    end in
  if String.eqb (roomId props) ""
  then set_error (Some ErrRoomIdMissing) s1
  else set_wsRef (Some (length (sockets s1)))
         (set_sockets (sockets s1 ++ [mkWs (roomId props) CONNECTING None []]) s1).

Definition joinMessage : Message :=
  mkMessage "join" (Some (roomId props)) None (Some (username props)) DUndefined.

(** [ws.onopen] of socket [i].  The 500 ms timer it starts only clears
    the loading flag and is not tracked. *)
Definition ws_onopen (i : nat) (s : State) : State :=
  let s1 := updateSocket i (ws_setReadyState OPEN) s in
  updateSocket i (ws_send joinMessage)
    (set_reconnectAttemptsRef 0 (set_isConnected true s1)).

(** [ws.onmessage]: [None] is a frame that [JSON.parse] rejects. *)
Definition ws_onmessage (parsed : option Message) (s : State) : State :=
  match parsed with
  | Some m => handleSignalingMessage m s
  | None => s
  end.

Definition ws_onerror (s : State) : State := set_isConnected false s.

(** The backoff delay in milliseconds for the attempt numbered [n]. *)
Definition reconnectDelay (n : Z) : Z := Z.min (1000 * 2 ^ n) 30000.

(** [setTimeout(() => connectWebSocket(), delay)], kept in
    [reconnectTimeoutRef]. *)
Definition scheduleReconnect (delay : Z) (s : State) : State :=
  let id := nextTimerId s in
  set_reconnectTimeoutRef (Some id)
    (set_nextTimerId (Pos.succ id) (set_timers (<[id := delay]> (timers s)) s)).

(** [clearTimeout(id)] *)
Definition clearTimeout (id : positive) (s : State) : State :=
  set_timers (delete id (timers s)) s.

(** [ws.onclose] of socket [i] with [event.code = code]. *)
Definition ws_onclose (i : nat) (code : Z) (s : State) : State :=
  let s1 := set_isConnected false (updateSocket i (ws_setReadyState CLOSED) s) in
  if code =? 1008 then set_error (Some (ErrRoomDoesNotExist (roomId props))) s1
  else if code =? 1000 then s1
  else if reconnectAttemptsRef s1 <? maxReconnectAttempts then
    let n := reconnectAttemptsRef s1 + 1 in
    scheduleReconnect (reconnectDelay n) (set_reconnectAttemptsRef n s1)
  else set_error (Some ErrConnectFailed) s1.

(** A pending reconnection timeout fires. *)
Definition timerFires (id : positive) (s : State) : State :=
  match timers s !! id with
  | Some _ => connectWebSocket (clearTimeout id s)
  | None => s
  end.

(** ** Local media *)

(** Outcome of [getUserMedia({video: true, audio: true})]: a stream with
    a microphone track and a camera track, or a rejection. *)
Inductive MediaResult :=
  | MediaGranted
  | MediaRejected (name message : string).

(** Outcome of [getDisplayMedia({video: true, audio: true})]: a stream
    with a display video track and possibly an audio track. *)
Inductive DisplayResult :=
  | DisplayGranted (withAudio : bool)
  | DisplayRejected (name message : string).

Definition isKind (k : TrackKind) (ts : list Track) (t : nat) : bool :=
  match ts !! t with
  | Some tr => bool_decide (kind tr = k)
  | None => false
  end.

(** [stream.getAudioTracks()], [stream.getVideoTracks()] *)
Definition tracksOfKind (k : TrackKind) (ts : list Track) (stream : list nat) : list nat :=
  filter (fun t => isKind k ts t = true) stream.

(** [initializeLocalStream()] *)
Definition initializeLocalStream (um : MediaResult) (s : State) : State :=
  match um with
  | MediaGranted =>
      let a := length (tracks s) in
      set_isLoading false
        (set_localStreamRef (Some [a; S a])
           (set_tracks (tracks s ++ [mkTrack Audio Microphone false false;
                                     mkTrack Video Camera false false]) s))
  | MediaRejected _ message =>
      set_isLoading false (set_error (Some (ErrMediaAccess message)) s)
  end.

(** The [init] function of the mount effect. *)
Definition init (um : MediaResult) (s : State) : State :=
  if initialized s then s
  else
    let s1 := initializeLocalStream um (set_initialized true s) in
    if isMounted s1 && negb (String.eqb (roomId props) "") then connectWebSocket s1
    else if String.eqb (roomId props) ""
         then set_isLoading false (set_error (Some ErrRoomIdMissing) s1)
         else s1.

(** ** Peer map traversal *)

(** [peersRef.current.forEach(f)]: [f] runs on every connection the map
    holds; the other connections of the store are left alone. *)
Definition forEachPeer (f : PeerConnection -> PeerConnection) (s : State) : State :=
  set_pcs (imap (fun i pc => if decide (i ∈ (map_img (peersRef s) : gset nat))
                             then f pc else pc) (pcs s)) s.

(** [stream.getTracks().forEach(track => { if (p(track)) track.stop() })] *)
Definition stopTracks (p : Track -> bool) (stream : list nat) (s : State) : State :=
  set_tracks (imap (fun i t => if decide (i ∈ stream) then (if p t then track_stop t else t)
                               else t) (tracks s)) s.

(** ** Screen sharing *)

(** [getSenders().find(s => s.track && s.track.kind === 'video')] followed
    by [replaceTrack(v)] on the sender found. *)
Fixpoint replaceVideoTrack (ts : list Track) (v : nat) (l : list (option nat))
  : list (option nat) :=
  match l with
  | [] => []
  | Some t :: rest =>
      if isKind Video ts t then Some v :: rest
      else Some t :: replaceVideoTrack ts v rest
  | None :: rest => None :: replaceVideoTrack ts v rest
  end.

(** [replaceTrack(v)] on the video sender of one connection. *)
Definition videoReplaced (ts : list Track) (v : nat) (pc : PeerConnection) : PeerConnection :=
  pc_setSenders (replaceVideoTrack ts v (senders pc)) pc.

Definition replaceVideoOnPeers (v : nat) (s : State) : State :=
  forEachPeer (videoReplaced (tracks s) v) s.

(** The [catch] of [toggleScreenShare]. *)
Definition screenShareFailed (name : string) (s : State) : State :=
  let s1 := set_showScreenShareWarning false s in
  if String.eqb name "NotAllowedError" then s1
  else set_alerts (alerts s1 ++ ["Could not share screen. Please try again."%string]) s1.

(** The branch [if (!isScreenSharing)]. *)
Definition startScreenShare (dm : DisplayResult) (s : State) : State :=
  match dm with
  | DisplayRejected name _ => screenShareFailed name s
  | DisplayGranted withAudio =>
      let v := length (tracks s) in
      let screenStream := if withAudio then [v; S v] else [v] in
      let s1 :=
        set_tracks (tracks s ++ mkTrack Video Display false false ::
                      (if withAudio then [mkTrack Audio Display false false] else [])) s in
      let s2 := replaceVideoOnPeers v (set_showScreenShareWarning true s1) in
      let finish (stream : list nat) (s3 : State) : State :=
        set_isScreenSharing true
          (set_tracks (alter track_setOnEnded v (tracks s3))
             (set_localStreamRef (Some stream) s3)) in
      match localStreamRef s2 with
      | None => finish screenStream s2
      | Some ls =>
          match tracksOfKind Audio (tracks s2) ls, tracksOfKind Video (tracks s2) ls with
          | a :: _, cam :: _ =>
              finish (if decide (a ∈ screenStream) then screenStream else screenStream ++ [a])
                     (set_tracks (alter track_stop cam (tracks s2)) s2)
          | _, _ => screenShareFailed "TypeError" s2
          end
      end
  end.

(** The branch [else]: back to the camera. *)
Definition stopScreenShare (um : MediaResult) (s : State) : State :=
  match um with
  | MediaRejected name _ => screenShareFailed name s
  | MediaGranted =>
      let a := length (tracks s) in
      let v := S a in
      let s1 :=
        set_tracks (tracks s ++ [mkTrack Audio Microphone false false;
                                 mkTrack Video Camera false false]) s in
      let s2 := replaceVideoOnPeers v s1 in
      let s3 :=
        match localStreamRef s2 with
        | Some ls => stopTracks (fun t => bool_decide (kind t = Video)) ls s2
        | None => s2
        end in
      set_showScreenShareWarning false
        (set_isScreenSharing false (set_localStreamRef (Some [a; v]) s3))
  end.

(** [toggleScreenShare] as a closure of the render in which
    [isScreenSharing] had the value [captured]. *)
Definition toggleScreenShare (captured : bool) (dm : DisplayResult) (um : MediaResult)
    (s : State) : State :=
  if negb captured then startScreenShare dm s else stopScreenShare um s.

(** The screen-share button holds the closure of the latest render. *)
Definition clickScreenShare (dm : DisplayResult) (um : MediaResult) (s : State) : State :=
  toggleScreenShare (isScreenSharing s) dm um s.

(** The browser ends track [t] and runs its [onended] handler.  The
    handler was created inside the branch [if (!isScreenSharing)] and
    calls the [toggleScreenShare] of that same render, in which
    [isScreenSharing] is [false]. *)
Definition trackEnded (t : nat) (dm : DisplayResult) (um : MediaResult) (s : State)
  : State :=
  match tracks s !! t with
  | Some tr =>
      let s1 := set_tracks (alter track_stop t (tracks s)) s in
      if hasOnEnded tr
      then toggleScreenShare false dm um (set_showScreenShareWarning false s1)
      else s1
  | None => s
  end.

(** ** Teardown *)

Definition leaveMessage : Message :=
  mkMessage "leave" (Some (roomId props)) None None DUndefined.

(** [handleLeave()], up to the call of the parent's [onLeave]. *)
Definition handleLeave (s : State) : State :=
  let s1 := set_peersRef ∅ (forEachPeer pc_close s) in
  let s2 :=
    match localStreamRef s1 with
    | Some ls => stopTracks (fun _ => true) ls s1
    | None => s1
    end in
  let s3 :=
    match wsRef s2 with
    | Some i =>
        match sockets s2 !! i with
        | Some ws =>
            if decide (readyState ws = OPEN) then updateSocket i (ws_send leaveMessage) s2
            else s2
        | None => s2
        end
    | None => s2
    end in
  let s4 :=
    match wsRef s3 with
    | Some i => set_wsRef None (updateSocket i ws_close s3)
    | None => s3
    end in
  match reconnectTimeoutRef s4 with
  | Some id => clearTimeout id s4
  | None => s4
  end.

(** The cleanup of the mount effect, run when the component unmounts. *)
Definition cleanup (s : State) : State :=
  let s0 := set_initialized false (set_isMounted false s) in
  let s1 :=
    match wsRef s0 with
    | Some i =>
        set_wsRef None
          (match sockets s0 !! i with
           | Some ws =>
               if decide (readyState ws = OPEN) then updateSocket i ws_close s0 else s0
           | None => s0
           end)
    | None => s0
    end in
  let s2 := set_peersRef ∅ (forEachPeer pc_close s1) in
  let s3 :=
    match localStreamRef s2 with
    | Some ls => stopTracks (fun _ => true) ls s2
    | None => s2
    end in
  match reconnectTimeoutRef s3 with
  | Some id => clearTimeout id s3
  | None => s3
  end.

End Client.

(** ** Room lookup ([utils/api.js]) *)

Module Api.

(** A parsed JSON value.  An object is the list of its properties. *)
#[local] Set Warnings "-register-all".
Inductive JSON :=
  | JNull
  | JBool (b : bool)
  | JNum (n : Z)
  | JStr (s : string)
  | JArr (l : list JSON)
  | JObj (fields : list (string * JSON)).

Record JsError := mkErr {
  err_name : string;
  err_message : string
}.

(** A [Response]: its status, the rejection of [response.text()] if it
    rejects, and what [response.json()] resolves to or rejects with. *)
Record Response := mkResponse {
  status : Z;
  text : option JsError;
  json : JSON + JsError
}.

(** [response.ok] *)
Definition ok (r : Response) : bool := (200 <=? status r) && (status r <=? 299).

(** What [fetch] settles to: a response, or a rejection (the network
    failed). *)
Inductive FetchResult :=
  | FetchResolved (r : Response)
  | FetchRejected (e : JsError).

Inductive Outcome :=
  | Returns (v : JSON)
  | Throws (e : JsError).

Definition jsTruthy (v : JSON) : bool :=
  match v with
  | JNull => false
  | JBool b => b
  | JNum n => negb (n =? 0)
  | JStr s => negb (String.eqb s "")
  | JArr _ | JObj _ => true
  end.

Fixpoint property (name : string) (fields : list (string * JSON)) : option JSON :=
  match fields with
  | [] => None
  | (k, v) :: rest => if String.eqb k name then Some v else property name rest
  end.

(** [data.exists] on a value that is not [null]: the property of an
    object, [undefined] on the other values. *)
Definition existsField (d : JSON) : option JSON :=
  match d with
  | JObj fields => property "exists" fields
  | _ => None
  end.

(** [v || false] *)
Definition orFalse (v : option JSON) : JSON :=
  match v with
  | Some x => if jsTruthy x then x else JBool false
  | None => JBool false
  end.

Definition networkError : JsError :=
  mkErr "Error"
    "Network error: Could not connect to backend server. Make sure it is running on port 8000.".

Definition httpError (r : Response) : JsError :=
  mkErr "Error" ("HTTP error! status: " +:+ pretty (status r)).

(** The [catch] block: a [TypeError] that mentions [fetch] becomes the
    network error, anything else is thrown again. *)
Definition catchBlock (e : JsError) : Outcome :=
  if String.eqb (err_name e) "TypeError" && includes "fetch" (err_message e)
  then Throws networkError
  else Throws e.

Section CheckRoom.

(** The message of the [TypeError] the JavaScript engine raises when a
    property of [null] is read. *)
Variable nullReadMessage : string.

(** [checkRoomExists(roomId)], given what the request settles to. *)
Definition checkRoomExists (f : FetchResult) : Outcome :=
  match f with
  | FetchRejected e => catchBlock e
  | FetchResolved r =>
      if status r =? 404 then Returns (JBool false)
      else if negb (ok r) then
        match text r with
        | Some e => catchBlock e
        | None => catchBlock (httpError r)
        end
      else
        match json r with
        | inr e => catchBlock e
        | inl JNull => catchBlock (mkErr "TypeError" nullReadMessage)
        | inl d => Returns (orFalse (existsField d))
        end
  end.

End CheckRoom.

(** The body shared by [createRoom] and [getRoomInfo]: any status that is
    not [ok] is an HTTP error, the parsed body is returned as it is, and
    the [catch] block throws again whatever was thrown. *)
Definition fetchJson (f : FetchResult) : Outcome :=
  match f with
  | FetchRejected e => Throws e
  | FetchResolved r =>
      if negb (ok r) then Throws (httpError r)
      else
        match json r with
        | inl d => Returns d
        | inr e => Throws e
        end
  end.

(** [createRoom()], given what the [POST /create-room] request settles to. *)
Definition createRoom (f : FetchResult) : Outcome := fetchJson f.

(** [getRoomInfo(roomId)], given what the [GET /rooms/{roomId}] request
    settles to. *)
Definition getRoomInfo (f : FetchResult) : Outcome := fetchJson f.

End Api.

(** * Runs and example calls *)

(** ** Runs of the reconnection controller *)


Section Runs.

Context (props : Props).



End Runs.


(** ** Concrete engines, props and states used by the examples *)

Definition engAccept : Engine :=
  mkEngine (fun _ => Some (mkDesc (Some "v=0"%string) (Some "offer"%string)))
           (fun _ => Some (mkDesc (Some "v=0"%string) (Some "answer"%string)))
           (fun _ _ => true) (fun _ _ => true) (fun _ _ => true).

(** An engine that, as browsers do, rejects a candidate while the remote
    description is missing. *)
Definition engStrict : Engine :=
  mkEngine (createOffer engAccept) (createAnswer engAccept)
           (fun _ _ => true) (fun _ _ => true)
           (fun pc _ => bool_decide (is_Some (remoteDescription pc))).

Definition room1 : Props := mkProps "room1" "Alice".

(** Alice, connected to [room1] with identity [alice], no peer yet. *)
Definition alice0 : State :=
  mkState [] [] [mkWs "room1" OPEN (Some "alice"%string) []] ∅ 1%positive
          (Some 0%nat) ∅ None None 0 true true
          true false false false None ∅ ∅ ∅ [] [].

Definition msgFrom (ty : string) (sender : string) (d : JsData) : Message :=
  mkMessage ty (Some "room1"%string) (Some sender) None d.

Definition userJoined (u : string) : Message :=
  mkMessage "user-joined" (Some "room1"%string) None (Some u) DUndefined.

Definition sdpData (ty : string) : JsData :=
  DObject (mkData (Some "v=0"%string) (Some ty) None None None None None None None None).

Definition iceData : JsData :=
  DObject (mkData None None (Some "candidate:1 1 UDP 2130706431 192.168.1.1 54321 typ host"%string)
                  (Some 0) (Some "0"%string) None None None None None).

Definition iceOf (d : JsData) : IceCandidate :=
  mkIce (optField d_candidate d) (optField d_sdpMLineIndex d) (optField d_sdpMid d).

(** The offers a state has sent, over all its sockets. *)
Definition offersSent (s : State) : list Message :=
  filter (fun m => type m = "offer"%string) (sockets s ≫= sent).

(** ** A call used by the examples *)

(** A component that has just mounted. *)
Definition mounted : State :=
  mkState [] [] [] ∅ 1%positive
          None ∅ None None 0 true false
          false true false false None ∅ ∅ ∅ [] [].

Definition connectedAs (u : string) : Message :=
  mkMessage "connected" (Some "room1"%string) None None
    (DObject (mkData None None None None None None (Some u) None None None)).

(** Alice with camera and microphone, connected as [alice]; Bob has
    joined and Alice holds a PeerLink to him that sends her microphone
    (track 0) and her camera (track 1). *)
Definition aliceInCall : State :=
  handleSignalingMessage room1 engAccept (userJoined "bob")
    (handleSignalingMessage room1 engAccept (connectedAs "alice")
       (ws_onopen room1 0 (init room1 MediaGranted mounted))).

(** Alice after she started sharing her screen (track 2). *)
Definition aliceSharing : State :=
  clickScreenShare (DisplayGranted false) MediaGranted aliceInCall.

(** Alice after she offered to Bob, without local media. *)
Definition aliceOffered : State :=
  handleSignalingMessage room1 engAccept (userJoined "bob") alice0.

Definition iceFromBob : Message := msgFrom "ice-candidate" "bob" iceData.
Definition offerFromBob : Message := msgFrom "offer" "bob" (sdpData "offer").
Definition answerFromBob : Message := msgFrom "answer" "bob" (sdpData "answer").

Definition existingParticipantsMsg (ps : list string) : Message :=
  mkMessage "existing-participants" (Some "room1"%string) None None
    (DObject (mkData None None None None None (Some ps) None None None None)).

(** The message V8 gives when [exists] is read from [null]. *)
Definition v8NullRead : string := "Cannot read properties of null (reading 'exists')".

(** * The rest of the client *)

(** ** More of the [VideoCall] component *)

Section ClientMore.

Context (props : Props).

(** The [Retry Connection] button of the error screen. *)
Definition retryConnection (s : State) : State :=
  connectWebSocket props (set_reconnectAttemptsRef 0 (set_error None s)).



Definition muteMessage (muted : bool) : Message :=
  mkMessage "mute-status" (Some (roomId props)) None None
    (DObject (mkData None None None None None None None None (Some muted) None)).

End ClientMore.

(** [getGridCols()], from [participants.length]. *)
Definition getGridCols (participants : nat) : string :=
  let total := S participants in
  if (total =? 1)%nat then "grid-cols-1"
  else if (total =? 2)%nat then "grid-cols-2"
  else if (total <=? 4)%nat then "grid-cols-2"
  else if (total <=? 6)%nat then "grid-cols-3"
  else if (total <=? 9)%nat then "grid-cols-3"
  else "grid-cols-4".

(** The number of columns a grid class of the style sheet lays out. *)
Definition gridColumns (cls : string) : nat :=
  if String.eqb cls "grid-cols-1" then 1
  else if String.eqb cls "grid-cols-2" then 2
  else if String.eqb cls "grid-cols-3" then 3
  else if String.eqb cls "grid-cols-4" then 4
  else 0.

(** The component together with the state the microphone and camera
    buttons use: [isMuted], [isVideoOff], and the tracks whose [enabled]
    property is [false] (a track is created enabled). *)
Record Call := mkCall {
  st : State;
  isMuted : bool;
  isVideoOff : bool;
  disabledTracks : gset nat
}.

(** [track.enabled = on] for every track of [ts]. *)
Definition setEnabled (on : bool) (ts : list nat) (disabled : gset nat) : gset nat :=
  if on then disabled ∖ list_to_set ts else disabled ∪ list_to_set ts.

Section Buttons.

Context (props : Props).

(** [toggleMic()] *)
Definition toggleMic (c : Call) : Call :=
  match localStreamRef (st c) with
  | Some ls =>
      mkCall (sendSignalingMessage (muteMessage props (negb (isMuted c))) (st c))
             (negb (isMuted c)) (isVideoOff c)
             (setEnabled (isMuted c) (tracksOfKind Audio (tracks (st c)) ls)
                (disabledTracks c))
  | None => c
  end.

(** [toggleVideo()] *)
Definition toggleVideo (c : Call) : Call :=
  match localStreamRef (st c) with
  | Some ls =>
      mkCall (st c) (isMuted c) (negb (isVideoOff c))
             (setEnabled (isVideoOff c) (tracksOfKind Video (tracks (st c)) ls)
                (disabledTracks c))
  | None => c
  end.

End Buttons.

(** One tile of the video grid. *)
Record Tile := mkTile {
  tile_userId : option string;
  tile_name : string;
  tile_stream : option (list nat);
  tile_isLocal : bool;
  tile_isMuted : bool;
  tile_isVideoOff : bool
}.

Section Grid.

(** [String.prototype.substring(start, end)], as the browser computes it.
    It counts UTF-16 code units, which the byte strings used here do not
    show, so the function is taken as it is and nothing is assumed of
    it. *)
Context (substring : nat -> nat -> string -> string).

(** The tile of one remote participant.  Without a stored name the name
    is made from the identity, and [substring] on an identity that is
    [undefined] throws ([None]). *)
Definition remoteTile (s : State) (uid : option string) : option Tile :=
  let stored := remoteUsernames s !! uid in
  name ← (if truthy stored then stored
          else (fun u => "User " +:+ substring 0 8 u) <$> uid);
  Some (mkTile uid name (remoteStreams s !! uid) false
               (default false (remoteMuteStatus s !! uid)) false).

(** [getAllParticipants()], for the identities in [participants]. *)
Definition getAllParticipants (username : string) (c : Call)
    (participants : list (option string)) : option (list Tile) :=
  remote ← mapM (remoteTile (st c)) participants;
  Some (mkTile (Some "local"%string) username (localStreamRef (st c)) true
               (isMuted c) (isVideoOff c) :: remote).

End Grid.

(** What the media side of the call consists of. *)
Definition mediaOf (s : State)
  : gmap (option string) nat * list PeerConnection * list Track * option (list nat)
    * gmap (option string) (list nat) :=
  (peersRef s, pcs s, tracks s, localStreamRef s, remoteStreams s).

(** A client without local media: no local stream, and no connection of
    the store has a sender. *)
Definition noLocalMedia (s : State) : Prop :=
  localStreamRef s = None /\ forall i pc, pcs s !! i = Some pc -> senders pc = [].

(** An engine that rejects nothing: every call on a peer connection
    resolves. *)
Definition accepts (eng : Engine) : Prop :=
  (forall pc, is_Some (createOffer eng pc))
  /\ (forall pc, is_Some (createAnswer eng pc))
  /\ (forall pc d, setLocalDescription eng pc d = true)
  /\ (forall pc d, setRemoteDescription eng pc d = true)
  /\ (forall pc c, addIceCandidate eng pc c = true).

(** The frame a client receives when the frame [m] was sent by the
    client with identity [sender]: same type and payload, with the
    sender's identity in [sender_id]. *)
Definition relayed (sender : string) (m m' : Message) : Prop :=
  type m' = type m /\ data m' = data m /\ sender_id m' = Some sender.

(** ** Invariant of the peer map *)

(** Every entry of the peer map names an open connection of the store
    that was created for that identity, and every open connection of the
    store is the one its identity is mapped to. *)
Definition peerLinksWf (s : State) : Prop :=
  (forall u i, peersRef s !! u = Some i ->
     exists pc, pcs s !! i = Some pc /\ pcUser pc = u /\ pcClosed pc = false)
  /\ (forall i pc, pcs s !! i = Some pc -> pcClosed pc = false ->
        peersRef s !! pcUser pc = Some i).

(** ** The join form ([App.js]) *)

Module App.

Inductive FormError :=
  | NoError
  | ErrMissingFields
  | ErrRoomNotFound (room : string)
  | ErrJoinFailed (message : string).

(** The state of the form: the fields as typed, and the flags. *)
Record AppState := mkApp {
  roomId : string;
  username : string;
  joined : bool;
  isJoining : bool;
  error : FormError
}.

Section Form.

(** [String.prototype.trim], and [checkRoomExists] as a function of the
    room identifier it is called with. *)
Context (trim : string -> string) (checkRoomExists : string -> Api.Outcome).

(** [handleJoin(e)] *)
Definition handleJoin (a : AppState) : AppState :=
  if String.eqb (trim (roomId a)) "" || String.eqb (trim (username a)) ""
  then mkApp (roomId a) (username a) (joined a) false ErrMissingFields
  else
    match checkRoomExists (trim (roomId a)) with
    | Api.Returns roomExists =>
        if Api.jsTruthy roomExists
        then mkApp (roomId a) (username a) true false NoError
        else mkApp (roomId a) (username a) (joined a) false
                   (ErrRoomNotFound (trim (roomId a)))
    | Api.Throws err =>
        mkApp (roomId a) (username a) (joined a) false
              (ErrJoinFailed (if String.eqb (Api.err_message err) ""
                              then "Unknown error" else Api.err_message err))
    end.

End Form.

(** [handleLeave()] of the form, passed to the call as [onLeave]. *)
Definition handleLeave (a : AppState) : AppState :=
  mkApp "" "" false (isJoining a) (error a).

(** The props the call is mounted with. *)
Definition callProps (a : AppState) : Props := mkProps (roomId a) (username a).

End App.

(** White space trimming, for the space character only: what
    [String.prototype.trim] does on a string whose only white space is
    spaces. *)
Fixpoint dropSpaces (s : string) : string :=
  match s with
  | String c rest => if Ascii.eqb c (Ascii.ascii_of_nat 32) then dropSpaces rest else s
  | EmptyString => s
  end.

Definition trimSpaces (s : string) : string :=
  String.rev (dropSpaces (String.rev (dropSpaces s))).

(** Bob, connected to [room1] with identity [bob], no peer yet. *)
Definition bob0 : State :=
  mkState [] [] [mkWs "room1" OPEN (Some "bob"%string) []] ∅ 1%positive
          (Some 0%nat) ∅ None None 0 true true
          true false false false None ∅ ∅ ∅ [] [].

(** * Properties *)

(** ** Dispatch on the message type *)

Section Dispatch.

Context (props : Props) (eng : Engine).

Lemma fromSelf_user_joined m s :
  type m = "user-joined"%string -> fromSelf m s = false.
Proof.
  intros H. unfold fromSelf. rewrite H. simpl.
  by rewrite andb_false_r.
Qed.

Lemma fromSelf_existing_participants m s :
  type m = "existing-participants"%string -> fromSelf m s = false.
Proof.
  intros H. unfold fromSelf. rewrite H. simpl.
  by rewrite andb_false_r.
Qed.

Lemma handle_user_joined m s :
  type m = "user-joined"%string ->
  handleSignalingMessage props eng m s = handleUserJoined props eng m s.
Proof.
  intros H. unfold handleSignalingMessage.
  rewrite (fromSelf_user_joined _ _ H), H. reflexivity.
Qed.

Lemma handle_existing_participants m s :
  type m = "existing-participants"%string ->
  handleSignalingMessage props eng m s = handleExistingParticipants props eng m s.
Proof.
  intros H. unfold handleSignalingMessage.
  rewrite (fromSelf_existing_participants _ _ H), H. reflexivity.
Qed.

Lemma handle_offer m s :
  type m = "offer"%string -> fromSelf m s = false ->
  handleSignalingMessage props eng m s = handleOffer props eng m s.
Proof.
  intros H F. unfold handleSignalingMessage. rewrite F, H. reflexivity.
Qed.

Lemma handle_answer m s :
  type m = "answer"%string ->
  handleSignalingMessage props eng m s
  = if fromSelf m s then s else handleAnswer eng m s.
Proof.
  intros H. unfold handleSignalingMessage. rewrite H. reflexivity.
Qed.

Lemma handle_ice_candidate m s :
  type m = "ice-candidate"%string ->
  handleSignalingMessage props eng m s
  = if fromSelf m s then s else handleIceCandidate eng m s.
Proof.
  intros H. unfold handleSignalingMessage. rewrite H. reflexivity.
Qed.

End Dispatch.

(** ** Negotiation handlers *)

Section Negotiation.

Context (props : Props) (eng : Engine).

(** Creating a peer connection and offering on it, on an open socket and
    with an engine that produces the offer: the new connection is stored
    under the identity, carries the offer as local description, and the
    offer is the last frame sent. *)
Lemma create_and_offer uid s iw ws offer :
  wsRef s = Some iw -> sockets s !! iw = Some ws -> readyState ws = OPEN ->
  createOffer eng (newPeerConnection uid s) = Some offer ->
  setLocalDescription eng (newPeerConnection uid s) offer = true ->
  let s' := sendOffer props eng (createPeerConnection uid s).1
                      (createPeerConnection uid s).2 in
  peersRef s' !! uid = Some (length (pcs s))
  /\ pcs s' !! length (pcs s) = Some (pc_setLocal offer (newPeerConnection uid s))
  /\ length (pcs s') = S (length (pcs s))
  /\ sockets s' !! iw = Some (ws_send (descriptionMessage props "offer" offer) ws).
Proof.
  intros Hw Hs Ho Hc Hl. simpl. unfold sendOffer. simpl.
  rewrite lookup_app_r by lia. rewrite Nat.sub_diag. simpl.
  rewrite Hc, Hl. unfold sendSignalingMessage. simpl.
  rewrite Hw, Hs. rewrite decide_True by done. simpl.
  repeat split.
  - apply lookup_insert_eq.
  - rewrite list_lookup_alter_eq, lookup_app_r by lia.
    rewrite Nat.sub_diag. reflexivity.
  - rewrite length_alter, length_app. simpl. lia.
  - rewrite list_lookup_alter_eq, Hs. reflexivity.
Qed.


Lemma peersRef_sendSignalingMessage m s :
  peersRef (sendSignalingMessage m s) = peersRef s.
Proof.
  unfold sendSignalingMessage.
  destruct (wsRef s); [|done]. destruct (sockets s !! n); [|done].
  by case_decide.
Qed.

Lemma pcs_sendSignalingMessage m s :
  pcs (sendSignalingMessage m s) = pcs s.
Proof.
  unfold sendSignalingMessage.
  destruct (wsRef s); [|done]. destruct (sockets s !! n); [|done].
  by case_decide.
Qed.

Lemma peersRef_sendOffer i s : peersRef (sendOffer props eng i s) = peersRef s.
Proof.
  unfold sendOffer. destruct (pcs s !! i); [|done].
  destruct (createOffer eng p); [|done].
  destruct (setLocalDescription eng p s0); [|done].
  by rewrite peersRef_sendSignalingMessage.
Qed.

Lemma peersRef_sendAnswer i d s : peersRef (sendAnswer props eng i d s) = peersRef s.
Proof.
  unfold sendAnswer. destruct (pcs s !! i); [|done].
  destruct (setRemoteDescription eng p _); [|done].
  destruct (createAnswer eng _); [|done].
  destruct (setLocalDescription eng _ _); [|done].
  by rewrite peersRef_sendSignalingMessage.
Qed.

Lemma length_pcs_sendAnswer i d s :
  length (pcs (sendAnswer props eng i d s)) = length (pcs s).
Proof.
  unfold sendAnswer. destruct (pcs s !! i); [|done].
  destruct (setRemoteDescription eng p _); [|done].
  destruct (createAnswer eng _); [|by unfold updatePc; simpl; rewrite length_alter].
  destruct (setLocalDescription eng _ _);
    [|by unfold updatePc; simpl; rewrite length_alter].
  rewrite pcs_sendSignalingMessage. unfold updatePc. simpl.
  by rewrite !length_alter.
Qed.

(** An entry of the enumeration never disturbs the PeerLink of another
    identity that is already in the map. *)
Lemma existingParticipant_keeps s e e' :
  is_Some (peersRef s !! Some e) ->
  peersRef (existingParticipant props eng s e') !! Some e = peersRef s !! Some e.
Proof.
  intros He. unfold existingParticipant.
  case_decide; [done|]. case_decide as Hin; [done|].
  simpl. rewrite peersRef_sendOffer. simpl.
  apply lookup_insert_ne. intros [= ->]. by apply Hin.
Qed.

Lemma existingParticipants_keep ps s e :
  is_Some (peersRef s !! Some e) ->
  peersRef (foldl (existingParticipant props eng) s ps) !! Some e = peersRef s !! Some e.
Proof.
  revert s. induction ps as [|e' ps IH]; intros s He; [done|].
  simpl. rewrite IH.
  - by apply existingParticipant_keeps.
  - by rewrite existingParticipant_keeps.
Qed.

Lemma existingParticipant_present s e :
  is_Some (peersRef s !! Some e) -> existingParticipant props eng s e = s.
Proof.
  intros He. unfold existingParticipant.
  case_decide; [done|]. by rewrite decide_True.
Qed.

Lemma existingParticipants_all_present ps s :
  Forall (fun e => is_Some (peersRef s !! Some e)) ps ->
  foldl (existingParticipant props eng) s ps = s.
Proof.
  induction 1 as [|e ps He _ IH]; [done|].
  simpl. by rewrite existingParticipant_present.
Qed.

Lemma myUserId_sendSignalingMessage m s :
  myUserId (sendSignalingMessage m s) = myUserId s.
Proof.
  unfold sendSignalingMessage.
  destruct (wsRef s) as [i|] eqn:Hw; [|done].
  destruct (sockets s !! i) as [ws|] eqn:Hs; [|done].
  case_decide; [|done].
  unfold myUserId, currentSocket. simpl. rewrite Hw. simpl.
  by rewrite list_lookup_alter_eq, Hs.
Qed.

Lemma myUserId_sendOffer i s : myUserId (sendOffer props eng i s) = myUserId s.
Proof.
  unfold sendOffer. destruct (pcs s !! i); [|done].
  destruct (createOffer eng p); [|done].
  destruct (setLocalDescription eng p s0); [|done].
  by rewrite myUserId_sendSignalingMessage.
Qed.

Lemma myUserId_existingParticipant s e :
  myUserId (existingParticipant props eng s e) = myUserId s.
Proof.
  unfold existingParticipant. case_decide; [done|]. case_decide; [done|].
  simpl. by rewrite myUserId_sendOffer.
Qed.

(** After one entry, its identity has a PeerLink unless it is the
    client's own. *)
Lemma existingParticipant_links s e :
  Some e <> myUserId s ->
  is_Some (peersRef (existingParticipant props eng s e) !! Some e).
Proof.
  intros Hme. unfold existingParticipant.
  rewrite decide_False by done. case_decide; [done|].
  simpl. rewrite peersRef_sendOffer. simpl.
  rewrite lookup_insert_eq. by eexists.
Qed.

Lemma existingParticipants_link ps s e :
  e ∈ ps -> Some e <> myUserId s ->
  is_Some (peersRef (foldl (existingParticipant props eng) s ps) !! Some e).
Proof.
  revert s. induction ps as [|e' ps IH]; intros s Hin Hme.
  - by apply not_elem_of_nil in Hin.
  - simpl. apply elem_of_cons in Hin as [->|Hin].
    + rewrite existingParticipants_keep; by apply existingParticipant_links.
    + apply IH; [done|]. by rewrite myUserId_existingParticipant.
Qed.

Lemma wsRef_existingParticipant s e :
  wsRef (existingParticipant props eng s e) = wsRef s.
Proof.
  unfold existingParticipant, sendOffer, sendSignalingMessage, createPeerConnection,
    updatePc, updateSocket.
  repeat (case_decide || case_match); by simplify_eq/=.
Qed.

Lemma localStreamRef_existingParticipant s e :
  localStreamRef (existingParticipant props eng s e) = localStreamRef s.
Proof.
  unfold existingParticipant, sendOffer, sendSignalingMessage, createPeerConnection,
    updatePc, updateSocket.
  repeat (case_decide || case_match); by simplify_eq/=.
Qed.

(** Through one entry of the enumeration a socket keeps its ready state,
    and its outbox only grows at the end. *)
Lemma sockets_existingParticipant s e iw ws :
  sockets s !! iw = Some ws ->
  exists ws' added, sockets (existingParticipant props eng s e) !! iw = Some ws'
    /\ readyState ws' = readyState ws
    /\ sent ws' = sent ws ++ added.
Proof.
  intros Hs.
  unfold existingParticipant, sendOffer, sendSignalingMessage, createPeerConnection,
    updatePc, updateSocket.
  repeat (case_decide || case_match); simplify_eq/=;
    try by (exists ws, []; rewrite app_nil_r).
  destruct (decide (iw = n)) as [->|Hne].
  - rewrite list_lookup_alter_eq, Hs. simpl. by eexists _, _.
  - rewrite list_lookup_alter_ne by done. exists ws, []. by rewrite app_nil_r.
Qed.

Lemma sockets_existingParticipants ps s iw ws :
  sockets s !! iw = Some ws ->
  exists ws' added, sockets (foldl (existingParticipant props eng) s ps) !! iw = Some ws'
    /\ readyState ws' = readyState ws
    /\ sent ws' = sent ws ++ added.
Proof.
  revert s ws. induction ps as [|e ps IH]; intros s ws Hs.
  - exists ws, []. by rewrite app_nil_r.
  - simpl.
    destruct (sockets_existingParticipant s e iw ws Hs) as (ws1 & a1 & Hs1 & Hr1 & Hsent1).
    destruct (IH _ ws1 Hs1) as (ws' & a2 & Hs' & Hr' & Hsent').
    exists ws', (a1 ++ a2). split; [done|]. split; [congruence|].
    by rewrite Hsent', Hsent1, (assoc_L (++)).
Qed.

Lemma pcs_existingParticipant s e i pc :
  pcs s !! i = Some pc -> pcs (existingParticipant props eng s e) !! i = Some pc.
Proof.
  intros Hi. pose proof (lookup_lt_Some _ _ _ Hi) as Hlt.
  unfold existingParticipant, sendOffer, sendSignalingMessage, createPeerConnection,
    updatePc, updateSocket.
  repeat (case_decide || case_match); simplify_eq/=;
    rewrite ?list_lookup_alter_ne by lia; rewrite ?lookup_app_l by lia; done.
Qed.

Lemma peersRef_existingParticipant_other s e e' :
  e <> e' ->
  peersRef (existingParticipant props eng s e') !! Some e = peersRef s !! Some e.
Proof.
  intros Hne. unfold existingParticipant.
  case_decide; [done|]. case_decide; [done|].
  simpl. rewrite peersRef_sendOffer. simpl.
  apply lookup_insert_ne. congruence.
Qed.

Lemma newPeerConnection_existingParticipant uid s e :
  newPeerConnection uid (existingParticipant props eng s e) = newPeerConnection uid s.
Proof. unfold newPeerConnection. by rewrite localStreamRef_existingParticipant. Qed.

(** A PeerLink that carries its offer is left as it is by the rest of the
    enumeration. *)
Lemma existingParticipants_offered ps s e i pc :
  peersRef s !! Some e = Some i -> pcs s !! i = Some pc ->
  let s' := foldl (existingParticipant props eng) s ps in
  peersRef s' !! Some e = Some i /\ pcs s' !! i = Some pc.
Proof.
  revert s. induction ps as [|e' ps IH]; intros s Hp Hpc; [done|].
  simpl. apply IH.
  - rewrite existingParticipant_keeps; by rewrite ?Hp.
  - by apply pcs_existingParticipant.
Qed.

Lemma existingParticipants_offer ps s iw ws e offer :
  wsRef s = Some iw -> sockets s !! iw = Some ws -> readyState ws = OPEN ->
  e ∈ ps -> Some e <> myUserId s -> peersRef s !! Some e = None ->
  createOffer eng (newPeerConnection (Some e) s) = Some offer ->
  setLocalDescription eng (newPeerConnection (Some e) s) offer = true ->
  let s' := foldl (existingParticipant props eng) s ps in
  exists i ws' added,
    peersRef s' !! Some e = Some i
    /\ pcs s' !! i = Some (pc_setLocal offer (newPeerConnection (Some e) s))
    /\ sockets s' !! iw = Some ws' /\ readyState ws' = OPEN
    /\ sent ws' = sent ws ++ added
    /\ descriptionMessage props "offer" offer ∈ added.
Proof.
  revert s ws. induction ps as [|e' ps IH]; intros s ws Hw Hs Ho Hin Hme Hp Hc Hl.
  - by apply not_elem_of_nil in Hin.
  - simpl. destruct (decide (e = e')) as [<-|Hne].
    + destruct (create_and_offer (Some e) s iw ws offer Hw Hs Ho Hc Hl)
        as (A & B & _ & D).
      assert (existingParticipant props eng s e
              = sendOffer props eng (createPeerConnection (Some e) s).1
                          (createPeerConnection (Some e) s).2) as ->.
      { unfold existingParticipant. rewrite decide_False by done.
        by rewrite decide_False by (rewrite Hp; by intros [? ?]). }
      cbv zeta in A, B, D.
      destruct (existingParticipants_offered ps _ e _ _ A B) as (A' & B').
      destruct (sockets_existingParticipants ps _ iw _ D) as (ws' & a2 & C' & D' & E').
      exists (length (pcs s)), ws', (descriptionMessage props "offer" offer :: a2).
      split; [exact A'|]. split; [exact B'|]. split; [exact C'|].
      split; [by rewrite D'|]. split; [|by constructor].
      rewrite E'. simpl. by rewrite <- (assoc_L (++)).
    + apply elem_of_cons in Hin as [->|Hin]; [done|].
      destruct (sockets_existingParticipant s e' iw ws Hs) as (ws1 & a1 & Hs1 & Hr1 & Hsent1).
      destruct (IH (existingParticipant props eng s e') ws1)
        as (i & ws' & a2 & A & B & C & D & E & F).
      * by rewrite wsRef_existingParticipant.
      * done.
      * congruence.
      * done.
      * by rewrite myUserId_existingParticipant.
      * by rewrite peersRef_existingParticipant_other.
      * by rewrite newPeerConnection_existingParticipant.
      * by rewrite newPeerConnection_existingParticipant.
      * rewrite newPeerConnection_existingParticipant in B.
        exists i, ws', (a1 ++ a2). split; [done|]. split; [done|]. split; [done|].
        split; [done|]. split; [by rewrite E, Hsent1, (assoc_L (++))|].
        apply elem_of_app. by right.
Qed.

(** C1, as the code has it: both sides initiate.  On ['user-joined'] for
    a remote identity that is not its own and has no PeerLink yet, the
    client that is already present creates the PeerLink and sends an
    offer itself (when the engine yields the offer and the socket is
    open).  The joining client does the same for every identity that an
    ['existing-participants'] message enumerates, however long the list:
    each listed identity other than its own that had no PeerLink gets
    one, carrying the offer the engine made for it as local description,
    and the ['offer'] frame with that offer's [sdp] and [type] is among
    the frames the handler adds to the socket's outbox.  After any enumeration, whatever the engine does,
    the client holds a PeerLink for every listed identity other than its
    own. *)
Theorem both_sides_initiate (s : State) (iw : nat) (ws : WebSocket) :
  wsRef s = Some iw -> sockets s !! iw = Some ws -> readyState ws = OPEN ->
  let offerFrame (offer : SessionDescription) :=
    mkMessage "offer" (Some (roomId props)) None None
      (DObject (mkData (sd_sdp offer) (sd_type offer) None None None
                       None None None None None)) in
  (forall m uid offer, type m = "user-joined"%string -> joinedUserId m = Some uid ->
     uid <> ""%string -> Some uid <> myUserId s -> peersRef s !! Some uid = None ->
     createOffer eng (newPeerConnection (Some uid) s) = Some offer ->
     setLocalDescription eng (newPeerConnection (Some uid) s) offer = true ->
     let s' := handleSignalingMessage props eng m s in
     peersRef s' !! Some uid = Some (length (pcs s))
     /\ pcs s' !! length (pcs s)
        = Some (pc_setLocal offer (newPeerConnection (Some uid) s))
     /\ sockets s' !! iw = Some (ws_send (offerFrame offer) ws))
  /\ (forall m ps e offer, type m = "existing-participants"%string ->
        optField d_participants (data m) = Some ps -> e ∈ ps ->
        Some e <> myUserId s -> peersRef s !! Some e = None ->
        createOffer eng (newPeerConnection (Some e) s) = Some offer ->
        setLocalDescription eng (newPeerConnection (Some e) s) offer = true ->
        let s' := handleSignalingMessage props eng m s in
        exists i ws' added,
          peersRef s' !! Some e = Some i
          /\ pcs s' !! i = Some (pc_setLocal offer (newPeerConnection (Some e) s))
          /\ sockets s' !! iw = Some ws' /\ readyState ws' = OPEN
          /\ sent ws' = sent ws ++ added
          /\ offerFrame offer ∈ added)
  /\ (forall m uid offer, type m = "existing-participants"%string ->
        optField d_participants (data m) = Some [uid] ->
        Some uid <> myUserId s -> peersRef s !! Some uid = None ->
        createOffer eng (newPeerConnection (Some uid) s) = Some offer ->
        setLocalDescription eng (newPeerConnection (Some uid) s) offer = true ->
        let s' := handleSignalingMessage props eng m s in
        peersRef s' !! Some uid = Some (length (pcs s))
        /\ pcs s' !! length (pcs s)
           = Some (pc_setLocal offer (newPeerConnection (Some uid) s))
        /\ sockets s' !! iw = Some (ws_send (offerFrame offer) ws))
  /\ (forall m ps e, type m = "existing-participants"%string ->
        optField d_participants (data m) = Some ps -> e ∈ ps ->
        Some e <> myUserId s ->
        is_Some (peersRef (handleSignalingMessage props eng m s) !! Some e)).
Proof.
  intros Hw Hs Ho. cbv zeta.
  split; [|split; [|split]].
  - intros m uid offer Hty Hj Hne Hme Hp Hc Hl.
    pose proof (create_and_offer (Some uid) s iw ws offer Hw Hs Ho Hc Hl)
      as (A & B & _ & D).
    rewrite handle_user_joined by done.
    unfold handleUserJoined. rewrite Hj.
    assert (truthy (Some uid) = true) as ->.
    { simpl. apply negb_true_iff, String.eqb_neq. done. }
    simpl. rewrite decide_False by done.
    rewrite decide_False by (rewrite Hp; by intros [? ?]).
    done.
  - intros m ps e offer Hty Hps Hin Hme Hp Hc Hl.
    rewrite handle_existing_participants by done.
    unfold handleExistingParticipants. rewrite Hps.
    by apply (existingParticipants_offer ps s iw ws e offer).
  - intros m uid offer Hty Hps Hme Hp Hc Hl.
    pose proof (create_and_offer (Some uid) s iw ws offer Hw Hs Ho Hc Hl)
      as (A & B & _ & D).
    rewrite handle_existing_participants by done.
    unfold handleExistingParticipants. rewrite Hps. simpl.
    unfold existingParticipant.
    rewrite decide_False by done.
    rewrite decide_False by (rewrite Hp; by intros [? ?]).
    done.
  - intros m ps e Hty Hps Hin He. rewrite handle_existing_participants by done.
    unfold handleExistingParticipants. rewrite Hps.
    by apply existingParticipants_link.
Qed.


(** C4: at most one PeerLink per remote identity.  For an identity that
    is already a key of the peer map, a duplicate ['user-joined'] leaves
    the whole state as it was (no second connection, no offer), an
    ['existing-participants'] entry for it does nothing, a message whose
    entries are all known is a no-op, and in any enumeration the identity
    keeps the PeerLink it had. *)
Theorem duplicate_identity_is_noop (s : State) :
  (forall m, type m = "user-joined"%string ->
     is_Some (peersRef s !! joinedUserId m) ->
     handleSignalingMessage props eng m s = s)
  /\ (forall e, is_Some (peersRef s !! Some e) ->
        existingParticipant props eng s e = s)
  /\ (forall m ps, type m = "existing-participants"%string ->
        optField d_participants (data m) = Some ps ->
        Forall (fun e => is_Some (peersRef s !! Some e)) ps ->
        handleSignalingMessage props eng m s = s)
  /\ (forall m ps e, type m = "existing-participants"%string ->
        optField d_participants (data m) = Some ps ->
        is_Some (peersRef s !! Some e) ->
        peersRef (handleSignalingMessage props eng m s) !! Some e
        = peersRef s !! Some e).
Proof.
  repeat split.
  - intros m Hty Hin. rewrite handle_user_joined by done.
    unfold handleUserJoined.
    destruct (truthy (joinedUserId m)); [|done]. simpl.
    case_decide; [done|]. by rewrite decide_True.
  - apply existingParticipant_present.
  - intros m ps Hty Hps Hall. rewrite handle_existing_participants by done.
    unfold handleExistingParticipants. rewrite Hps.
    by apply existingParticipants_all_present.
  - intros m ps e Hty Hps He. rewrite handle_existing_participants by done.
    unfold handleExistingParticipants. rewrite Hps.
    by apply existingParticipants_keep.
Qed.

(** C10: the two handlers differ when the sender has no PeerLink.  An
    ['offer'] (not from the client itself) first creates a PeerLink for
    the sender and then negotiates on that new connection: when the
    engine accepts each step and the socket is open, the connection
    carries the remote description and the answer is sent.  An ['answer']
    is dropped and the state is left exactly as it was. *)
Theorem offer_creates_answer_discards (s : State) :
  (forall m, type m = "offer"%string -> fromSelf m s = false ->
     peersRef s !! sender_id m = None ->
     let fresh := newPeerConnection (sender_id m) s in
     let remote := sessionDescriptionOf (data m) in
     let s' := handleSignalingMessage props eng m s in
     remoteDescription fresh = None
     /\ peersRef s' !! sender_id m = Some (length (pcs s))
     /\ length (pcs s') = S (length (pcs s))
     /\ (forall iw ws answer,
           wsRef s = Some iw -> sockets s !! iw = Some ws -> readyState ws = OPEN ->
           setRemoteDescription eng fresh remote = true ->
           createAnswer eng (pc_setRemote remote fresh) = Some answer ->
           setLocalDescription eng (pc_setRemote remote fresh) answer = true ->
           pcs s' !! length (pcs s)
           = Some (pc_setLocal answer (pc_setRemote remote fresh))
           /\ sockets s' !! iw
              = Some (ws_send
                        (mkMessage "answer" (Some (roomId props)) None None
                           (DObject (mkData (sd_sdp answer) (sd_type answer) None None None
                                            None None None None None))) ws)))
  /\ (forall m, type m = "answer"%string ->
        peersRef s !! sender_id m = None ->
        handleSignalingMessage props eng m s = s).
Proof.
  split.
  - intros m Hty Hself Hnone. simpl. rewrite handle_offer by done.
    unfold handleOffer. rewrite Hnone. simpl.
    split; [done|]. split; [|split].
    + rewrite peersRef_sendAnswer. simpl. apply lookup_insert_eq.
    + rewrite length_pcs_sendAnswer. simpl. rewrite length_app. simpl. lia.
    + intros iw ws answer Hw Hs Ho Hr Hc Hl.
      unfold sendAnswer. simpl.
      rewrite lookup_app_r by lia. rewrite Nat.sub_diag. simpl.
      rewrite Hr, Hc, Hl. unfold sendSignalingMessage. simpl.
      rewrite Hw, Hs. rewrite decide_True by done. simpl. split.
      * rewrite list_lookup_alter_eq, list_lookup_alter_eq.
        rewrite lookup_app_r by lia. rewrite Nat.sub_diag. reflexivity.
      * rewrite list_lookup_alter_eq, Hs. reflexivity.
  - intros m Hty Hnone. rewrite handle_answer by done.
    unfold handleAnswer. rewrite Hnone. by destruct (fromSelf m s).
Qed.

(** C2, as the code has it: there is no queue.  A candidate whose sender
    has no PeerLink is dropped and the state is unchanged; a candidate
    whose sender has a PeerLink is handed to that connection at once,
    whatever its remote description, and is kept only if the engine
    accepts it then. *)
Theorem ice_candidate_applied_at_once_or_dropped (s : State) (m : Message) :
  type m = "ice-candidate"%string ->
  (peersRef s !! sender_id m = None -> handleSignalingMessage props eng m s = s)
  /\ (forall i pc o,
        fromSelf m s = false ->
        peersRef s !! sender_id m = Some i -> pcs s !! i = Some pc ->
        data m = DObject o ->
        let c := mkIce (d_candidate o) (d_sdpMLineIndex o) (d_sdpMid o) in
        handleSignalingMessage props eng m s
        = if addIceCandidate eng pc c then updatePc i (pc_addCandidate c) s else s).
Proof.
  intros Hty. rewrite handle_ice_candidate by done. split.
  - intros Hnone. unfold handleIceCandidate. rewrite Hnone.
    by destruct (fromSelf m s).
  - intros i pc o Hself Hi Hpc Hd. simpl. rewrite Hself.
    unfold handleIceCandidate. by rewrite Hi, Hpc, Hd.
Qed.

End Negotiation.

(** ** Reconnection controller *)

Section Reconnection.

Context (props : Props) (eng : Engine).











End Reconnection.

(** ** Joining without local media *)

Section Mount.

Context (props : Props).

Lemma connectWebSocket_creates s :
  roomId props <> ""%string ->
  let s' := connectWebSocket props s in
  wsRef s' = Some (length (sockets s))
  /\ sockets s' !! length (sockets s) = Some (mkWs (roomId props) CONNECTING None [])
  /\ error s' = error s /\ localStreamRef s' = localStreamRef s
  /\ tracks s' = tracks s /\ isLoading s' = isLoading s.
Proof.
  intros Hroom. apply String.eqb_neq in Hroom.
  unfold connectWebSocket. rewrite Hroom.
  assert (forall l : list WebSocket, (l ++ [mkWs (roomId props) CONNECTING None []])
            !! length l = Some (mkWs (roomId props) CONNECTING None [])) as Hlast.
  { intros l. rewrite lookup_app_r by lia. by rewrite Nat.sub_diag. }
  destruct (wsRef s) as [i|]; [destruct (sockets s !! i) as [ws|]|];
    [destruct (decide (readyState ws = OPEN))| |]; simpl;
    rewrite ?length_alter; repeat split; try done.
  rewrite <- (length_alter ws_close (sockets s) i). apply Hlast.
Qed.

(** C8: when the camera and microphone cannot be acquired the session
    goes on.  [initializeLocalStream] records the error and hands back a
    state with no local stream; [init] then creates the signaling socket,
    and when that socket opens the ['join'] message is sent on it. *)
Theorem media_failure_still_joins (s : State) (name message : string) :
  initialized s = false -> isMounted s = true -> roomId props <> ""%string ->
  let s0 := initializeLocalStream (MediaRejected name message) s in
  let s1 := init props (MediaRejected name message) s in
  let i := length (sockets s) in
  error s0 = Some (ErrMediaAccess message)
  /\ localStreamRef s0 = localStreamRef s /\ tracks s0 = tracks s
  /\ error s1 = Some (ErrMediaAccess message)
  /\ localStreamRef s1 = localStreamRef s
  /\ wsRef s1 = Some i
  /\ sockets s1 !! i = Some (mkWs (roomId props) CONNECTING None [])
  /\ sockets (ws_onopen props i s1) !! i
     = Some (mkWs (roomId props) OPEN None
               [mkMessage "join" (Some (roomId props)) None (Some (username props)) DUndefined]).
Proof.
  intros Hinit Hmounted Hroom. simpl.
  split; [done|]. split; [done|]. split; [done|].
  unfold init. rewrite Hinit. simpl. rewrite Hmounted.
  assert (String.eqb (roomId props) "" = false) as -> by by apply String.eqb_neq.
  simpl.
  set (s0 := set_isLoading _ _).
  destruct (connectWebSocket_creates s0 Hroom) as (A & B & C & D & _).
  change (sockets s0) with (sockets s) in A, B.
  repeat split; try done.
  unfold ws_onopen, updateSocket. simpl.
  rewrite list_lookup_alter_eq. simpl.
  rewrite list_lookup_alter_eq, B. reflexivity.
Qed.

End Mount.

(** ** Room lookup *)

Section RoomLookup.

Import Api.

Context (nullReadMessage : string).

Example includes_fetch :
  includes "fetch" "Failed to fetch" = true /\ includes "fetch" "data is null" = false.
Proof. by vm_compute. Qed.

(** A rejected [fetch] is reported as the network error. *)
Example fetch_rejected_is_network_error :
  checkRoomExists nullReadMessage (FetchRejected (mkErr "TypeError" "Failed to fetch"))
  = Throws networkError.
Proof. reflexivity. Qed.

Lemma catchBlock_throws e : exists e', catchBlock e = Throws e'.
Proof. unfold catchBlock. destruct (_ && _); eauto. Qed.

Lemma orFalse_true d :
  orFalse (existsField d) = JBool true -> existsField d = Some (JBool true).
Proof.
  unfold orFalse. destruct (existsField d) as [v|]; [|done].
  destruct (jsTruthy v) eqn:Hv; [by intros ->|done].
Qed.

(** C9, as the code has it: a 404 gives [false]; a 2xx response whose
    body parses to a value other than [null] gives the truthy [exists] of
    that value, and [false] when it has none, so [true] is returned only
    for a body whose [exists] is [true]; the function throws on a network
    failure, on a status that is neither 2xx nor 404, and also on a 2xx
    response whose body does not parse or is [null], and in no other
    case. *)
Theorem checkRoomExists_outcomes (f : FetchResult) :
  (forall r, f = FetchResolved r -> status r = 404 ->
     checkRoomExists nullReadMessage f = Returns (JBool false))
  /\ (forall r d, f = FetchResolved r -> ok r = true -> json r = inl d -> d <> JNull ->
        checkRoomExists nullReadMessage f = Returns (orFalse (existsField d))
        /\ ((forall v, existsField d = Some v -> jsTruthy v = false) ->
            checkRoomExists nullReadMessage f = Returns (JBool false)))
  /\ (checkRoomExists nullReadMessage f = Returns (JBool true) ->
        exists r d, f = FetchResolved r /\ ok r = true /\ json r = inl d
                    /\ existsField d = Some (JBool true))
  /\ (forall e, checkRoomExists nullReadMessage f = Throws e ->
        (exists e0, f = FetchRejected e0)
        \/ (exists r, f = FetchResolved r /\ ok r = false /\ status r <> 404)
        \/ (exists r, f = FetchResolved r /\ ok r = true
                      /\ (json r = inl JNull \/ exists e0, json r = inr e0)))
  /\ ((exists e0, f = FetchRejected e0)
      \/ (exists r, f = FetchResolved r /\ ok r = false /\ status r <> 404)
      \/ (exists r, f = FetchResolved r /\ ok r = true
                    /\ (json r = inl JNull \/ exists e0, json r = inr e0)) ->
      exists e, checkRoomExists nullReadMessage f = Throws e).
Proof.
  assert (forall r, ok r = true -> (status r =? 404) = false) as Hok404.
  { intros r Hok. unfold ok in Hok. apply andb_true_iff in Hok as [_ H2].
    apply Z.leb_le in H2. apply Z.eqb_neq. lia. }
  split; [|split; [|split; [|split]]].
  - intros r -> H404. simpl. by rewrite H404.
  - intros r d -> Hok Hj Hd. simpl.
    rewrite (Hok404 r Hok), Hok, Hj. simpl.
    assert (checkRoomExistsBody : match d with
              | JNull => catchBlock (mkErr "TypeError" nullReadMessage)
              | _ => Returns (orFalse (existsField d))
              end = Returns (orFalse (existsField d))) by by destruct d.
    rewrite checkRoomExistsBody. split; [done|].
    intros Hlack. f_equal. unfold orFalse.
    destruct (existsField d) as [v|]; [|done]. by rewrite (Hlack v).
  - destruct f as [r|e]; simpl.
    + destruct (status r =? 404) eqn:H404; [done|].
      destruct (ok r) eqn:Hok; simpl.
      * destruct (json r) as [d|e] eqn:Hj.
        -- assert (d = JNull \/ match d with
                   | JNull => catchBlock (mkErr "TypeError" nullReadMessage)
                   | _ => Returns (orFalse (existsField d))
                   end = Returns (orFalse (existsField d))) as [-> | ->]
             by (destruct d; auto).
           ++ intros Hc.
              destruct (catchBlock_throws (mkErr "TypeError" nullReadMessage))
                as [e' He']. by rewrite He' in Hc.
           ++ intros [= Ht]. apply orFalse_true in Ht.
              eexists _, _. by repeat split.
        -- intros Hc. destruct (catchBlock_throws e) as [e' He']. by rewrite He' in Hc.
      * destruct (text r) as [e|]; intros Hc;
          [destruct (catchBlock_throws e) as [e' He']
          |destruct (catchBlock_throws (httpError r)) as [e' He']];
          by rewrite He' in Hc.
    + intros Hc. destruct (catchBlock_throws e) as [e' He']. by rewrite He' in Hc.
  - intros e. destruct f as [r|e0]; simpl; [|by left; eauto].
    destruct (status r =? 404) eqn:H404; [done|].
    apply Z.eqb_neq in H404.
    destruct (ok r) eqn:Hok; simpl.
    + destruct (json r) as [d|e0] eqn:Hj.
      * destruct d; try done. intros _. right; right. eexists; eauto.
      * intros _. right; right. eexists; eauto 6.
    + intros _. right; left. eauto.
  - intros [[e0 ->]|[(r & -> & Hok & H404)|(r & -> & Hok & Hj)]]; simpl.
    + apply catchBlock_throws.
    + apply Z.eqb_neq in H404. rewrite H404, Hok. simpl.
      destruct (text r); apply catchBlock_throws.
    + rewrite (Hok404 r Hok), Hok. simpl.
      destruct Hj as [->|[e0 ->]]; apply catchBlock_throws.
Qed.

End RoomLookup.

(** ** Teardown *)

Section Teardown.

Context (props : Props).

Lemma lookup_forEachPeer f s i :
  pcs (forEachPeer f s) !! i
  = (fun pc => if decide (i ∈ (map_img (peersRef s) : gset nat)) then f pc else pc)
      <$> pcs s !! i.
Proof. unfold forEachPeer. simpl. apply list_lookup_imap. Qed.

Lemma lookup_stopTracks p stream s t :
  tracks (stopTracks p stream s) !! t
  = (fun tr => if decide (t ∈ stream) then (if p tr then track_stop tr else tr) else tr)
      <$> tracks s !! t.
Proof. unfold stopTracks. simpl. apply list_lookup_imap. Qed.

Ltac leave_cases s :=
  unfold handleLeave, stopTracks, forEachPeer, updateSocket, clearTimeout;
  repeat (cbn in *; case_match; simplify_eq); cbn.

Lemma peersRef_handleLeave s : peersRef (handleLeave props s) = ∅.
Proof. leave_cases s; cbn in *; congruence. Qed.

Lemma wsRef_handleLeave s : wsRef (handleLeave props s) = None.
Proof. leave_cases s; cbn in *; congruence. Qed.

Lemma pcs_handleLeave s : pcs (handleLeave props s) = pcs (forEachPeer pc_close s).
Proof. leave_cases s; cbn in *; congruence. Qed.

Lemma tracks_handleLeave s :
  tracks (handleLeave props s)
  = match localStreamRef s with
    | Some ls => tracks (stopTracks (fun _ => true) ls s)
    | None => tracks s
    end.
Proof. leave_cases s; cbn in *; congruence. Qed.

Lemma timers_handleLeave s :
  timers (handleLeave props s)
  = match reconnectTimeoutRef s with
    | Some id => delete id (timers s)
    | None => timers s
    end.
Proof. leave_cases s; cbn in *; congruence. Qed.

Lemma sockets_handleLeave s i ws :
  wsRef s = Some i -> sockets s !! i = Some ws ->
  sockets (handleLeave props s) !! i
  = Some (ws_close (if decide (readyState ws = OPEN)
                    then ws_send (leaveMessage props) ws else ws)).
Proof.
  intros Hw Hs. leave_cases s; cbn in *;
    repeat match goal with
           | H1 : ?x = Some ?a, H2 : ?x = Some ?b |- _ =>
               rewrite H1 in H2; injection H2 as <-
           | H1 : ?x = Some ?a, H2 : ?x = None |- _ => by rewrite H1 in H2
           end;
    rewrite ?list_lookup_alter_eq, ?Hs; done.
Qed.

(** What [handleLeave] itself leaves behind: the peer map is empty and
    every connection it held is closed; every track of the local stream
    is stopped; the socket of [wsRef] is closing, after the ['leave']
    frame if it was open, and [wsRef] is cleared; the timeout named by
    [reconnectTimeoutRef] is cancelled and cannot fire. *)
Lemma handleLeave_teardown (s : State) :
  let s' := handleLeave props s in
  peersRef s' = ∅
  /\ (forall u i pc, peersRef s !! u = Some i -> pcs s !! i = Some pc ->
        pcs s' !! i = Some (pc_close pc))
  /\ (forall ls t tr, localStreamRef s = Some ls -> t ∈ ls -> tracks s !! t = Some tr ->
        tracks s' !! t = Some (track_stop tr))
  /\ wsRef s' = None
  /\ (forall i ws, wsRef s = Some i -> sockets s !! i = Some ws ->
        exists ws', sockets s' !! i = Some ws'
                    /\ readyState ws' <> OPEN /\ readyState ws' <> CONNECTING
                    /\ (readyState ws = OPEN ->
                        sent ws' = sent ws
                                   ++ [mkMessage "leave" (Some (roomId props)) None None
                                                 DUndefined]))
  /\ (forall id, reconnectTimeoutRef s = Some id ->
        timers s' !! id = None /\ timerFires props id s' = s').
Proof.
  simpl. split; [apply peersRef_handleLeave|].
  split; [|split; [|split; [apply wsRef_handleLeave|split]]].
  - intros u i pc Hu Hpc. rewrite pcs_handleLeave, lookup_forEachPeer, Hpc. simpl.
    rewrite decide_True; [done|]. by apply (elem_of_map_img_2 _ u).
  - intros ls t tr Hls Ht Htr. rewrite tracks_handleLeave, Hls.
    rewrite lookup_stopTracks, Htr. simpl. by rewrite decide_True.
  - intros i ws Hw Hs. rewrite (sockets_handleLeave s i ws Hw Hs).
    eexists. split; [reflexivity|].
    destruct (decide (readyState ws = OPEN)) as [Ho|Hn].
    + unfold ws_close. simpl. rewrite Ho. simpl. repeat split; done.
    + unfold ws_close. destruct (readyState ws) eqn:Hr; simpl;
        rewrite ?Hr; repeat split; done.
  - intros id Hid.
    assert (timers (handleLeave props s) !! id = None) as Hnone.
    { rewrite timers_handleLeave, Hid. apply lookup_delete_eq. }
    split; [done|]. unfold timerFires. by rewrite Hnone.
Qed.

End Teardown.

(** ** Screen sharing leaves signaling and audio alone *)

Section ScreenShareFrame.

Lemma replaceVideoTrack_length ts v l :
  length (replaceVideoTrack ts v l) = length l.
Proof.
  induction l as [|[t|] l IH]; simpl; [done| |by rewrite IH].
  destruct (isKind Video ts t); simpl; by rewrite ?IH.
Qed.

(** A sender whose track is not a video track keeps its track. *)
Lemma replaceVideoTrack_other ts v l j t :
  l !! j = Some (Some t) -> isKind Video ts t = false ->
  replaceVideoTrack ts v l !! j = Some (Some t).
Proof.
  revert j. induction l as [|[t'|] l IH]; intros j Hj Hk; [done| |].
  - simpl. destruct j as [|j]; simpl in Hj.
    + injection Hj as ->. by rewrite Hk.
    + destruct (isKind Video ts t'); simpl; [done|]. by apply IH.
  - simpl. destruct j as [|j]; simpl in Hj; [done|]. by apply IH.
Qed.

Lemma isKind_audio_not_video ts X t tr :
  ts !! t = Some tr -> kind tr = Audio -> isKind Video (ts ++ X) t = false.
Proof.
  intros Ht Hk. unfold isKind. rewrite (lookup_app_l_Some _ _ _ _ Ht), Hk.
  by apply bool_decide_eq_false.
Qed.

Ltac share_cases :=
  unfold clickScreenShare, toggleScreenShare, startScreenShare, stopScreenShare,
    screenShareFailed, replaceVideoOnPeers, forEachPeer, stopTracks;
  repeat (cbn in *; case_match; simplify_eq); cbn in *.

Lemma sockets_toggleScreenShare captured dm um s :
  sockets (toggleScreenShare captured dm um s) = sockets s.
Proof. share_cases; congruence. Qed.

Lemma peersRef_toggleScreenShare captured dm um s :
  peersRef (toggleScreenShare captured dm um s) = peersRef s.
Proof. share_cases; congruence. Qed.

(** The connections are either untouched or each connection of the peer
    map had its video sender's track replaced. *)
Lemma pcs_toggleScreenShare captured dm um s :
  pcs (toggleScreenShare captured dm um s) = pcs s
  \/ exists X v,
       pcs (toggleScreenShare captured dm um s)
       = pcs (forEachPeer (videoReplaced (tracks s ++ X) v) s).
Proof.
  share_cases; try (left; congruence); right; eexists _, _; reflexivity.
Qed.

Lemma tracks_toggleScreenShare captured dm um s t tr :
  tracks s !! t = Some tr -> kind tr = Audio ->
  tracks (toggleScreenShare captured dm um s) !! t = Some tr.
Proof.
  intros Ht Hk.
  assert (forall X, (tracks s ++ X) !! t = Some tr) as Happ
    by (intros X; by apply lookup_app_l_Some).
  assert (t <> length (tracks s)) as Hfresh
    by (apply lookup_lt_Some in Ht; lia).
  assert (forall X c l rest, tracksOfKind Video (tracks s ++ X) l = c :: rest -> t <> c)
    as Hcam.
  { intros X c l rest Hf ->.
    assert (c ∈ tracksOfKind Video (tracks s ++ X) l) as Hin by (rewrite Hf; left).
    apply list_elem_of_filter in Hin as [Hv _].
    by rewrite (isKind_audio_not_video _ X _ _ Ht Hk) in Hv. }
  share_cases; try done; try apply Happ;
    rewrite ?list_lookup_alter_ne
      by first [ done | intros ->; eapply Hcam; eauto ];
    rewrite ?list_lookup_imap, ?Happ; try done; simpl.
  case_decide; [|done].
  rewrite bool_decide_eq_false_2; [done|]. by rewrite Hk.
Qed.

(** C7, the part that holds: whichever closure of [toggleScreenShare]
    runs and whatever the browser answers, no frame is sent, the peer
    map is unchanged, every connection keeps its identity, descriptions,
    candidates and number of senders, a sender that carries an audio
    track keeps it, and the audio track objects are not touched. *)
Lemma toggleScreenShare_frame captured dm um s :
  let s' := toggleScreenShare captured dm um s in
  sockets s' = sockets s
  /\ peersRef s' = peersRef s
  /\ (forall i pc, pcs s !! i = Some pc ->
        exists pc', pcs s' !! i = Some pc'
          /\ pcUser pc' = pcUser pc
          /\ localDescription pc' = localDescription pc
          /\ remoteDescription pc' = remoteDescription pc
          /\ iceCandidates pc' = iceCandidates pc
          /\ pcClosed pc' = pcClosed pc
          /\ length (senders pc') = length (senders pc)
          /\ (forall j t tr, senders pc !! j = Some (Some t) ->
                tracks s !! t = Some tr -> kind tr = Audio ->
                senders pc' !! j = Some (Some t)))
  /\ (forall t tr, tracks s !! t = Some tr -> kind tr = Audio ->
        tracks s' !! t = Some tr).
Proof.
  simpl. split; [apply sockets_toggleScreenShare|].
  split; [apply peersRef_toggleScreenShare|].
  split; [|intros t tr; apply tracks_toggleScreenShare].
  intros i pc Hpc.
  destruct (pcs_toggleScreenShare captured dm um s) as [->|(X & v & ->)].
  - exists pc. by repeat split.
  - rewrite lookup_forEachPeer, Hpc. simpl.
    case_decide; [|exists pc; by repeat split].
    eexists. split; [reflexivity|]. simpl.
    repeat split; [apply replaceVideoTrack_length|].
    intros j t tr Hj Ht Hk. apply replaceVideoTrack_other; [done|].
    by apply (isKind_audio_not_video _ _ _ tr).
Qed.

End ScreenShareFrame.

(** ** Screen sharing and teardown on a concrete call *)

Example aliceInCall_senders :
  senders <$> pcs aliceInCall !! 0%nat = Some [Some 0%nat; Some 1%nat]
  /\ tracks aliceInCall = [mkTrack Audio Microphone false false;
                           mkTrack Video Camera false false].
Proof. by vm_compute. Qed.

Example aliceSharing_senders :
  senders <$> pcs aliceSharing !! 0%nat = Some [Some 0%nat; Some 2%nat]
  /\ tracks aliceSharing !! 2%nat = Some (mkTrack Video Display false true)
  /\ isScreenSharing aliceSharing = true
  /\ sockets aliceSharing = sockets aliceInCall.
Proof. by vm_compute. Qed.

(** Clicking the button again does go back to a camera track. *)
Example click_again_reverts :
  let s' := clickScreenShare (DisplayGranted false) MediaGranted aliceSharing in
  senders <$> pcs s' !! 0%nat = Some [Some 0%nat; Some 4%nat]
  /\ tracks s' !! 4%nat = Some (mkTrack Video Camera false false)
  /\ isScreenSharing s' = false.
Proof. by vm_compute. Qed.

(** The handler run when a track ends never asks for the camera: its
    result does not depend on what [getUserMedia] would answer. *)
Lemma trackEnded_never_requests_camera t dm um um' s :
  trackEnded t dm um s = trackEnded t dm um' s.
Proof.
  unfold trackEnded. destruct (tracks s !! t) as [tr|]; [|done].
  by destruct (hasOnEnded tr).
Qed.

(** C7, the part the code misses: when the shared screen track ends, the
    [onended] handler calls a [toggleScreenShare] in which
    [isScreenSharing] is still [false], so it asks for a display capture
    again.  Here the browser refuses that request: Bob's PeerLink keeps
    sending the ended screen track, no camera track is put back, and the
    component still believes it is sharing. *)
Theorem ended_screen_track_is_not_reverted :
  let s' := trackEnded 2 (DisplayRejected "InvalidStateError" "no user activation")
              MediaGranted aliceSharing in
  senders <$> pcs s' !! 0%nat = Some [Some 0%nat; Some 2%nat]
  /\ tracks s' !! 2%nat = Some (mkTrack Video Display true true)
  /\ tracks s' !! 1%nat = Some (mkTrack Video Camera true false)
  /\ length (tracks s') = 3%nat
  /\ isScreenSharing s' = true
  /\ alerts s' = ["Could not share screen. Please try again."%string].
Proof. by vm_compute. Qed.

(** When the browser grants the new capture instead, the PeerLink gets
    another display track, still not the camera. *)
Example ended_screen_track_shares_again :
  let s' := trackEnded 2 (DisplayGranted false) MediaGranted aliceSharing in
  senders <$> pcs s' !! 0%nat = Some [Some 0%nat; Some 3%nat]
  /\ tracks s' !! 3%nat = Some (mkTrack Video Display false true).
Proof. by vm_compute. Qed.

(** After a round of screen sharing the microphone track captured at
    mount (track 0) is no longer part of the local stream, and
    [handleLeave] does not stop it. *)
Example leave_after_sharing_keeps_first_microphone :
  let s1 := clickScreenShare (DisplayGranted false) MediaGranted aliceSharing in
  let s2 := handleLeave room1 s1 in
  localStreamRef s1 = Some [3%nat; 4%nat]
  /\ tracks s2 !! 0%nat = Some (mkTrack Audio Microphone false false)
  /\ ended <$> tracks s2 !! 3%nat = Some true
  /\ ended <$> tracks s2 !! 4%nat = Some true.
Proof. by vm_compute. Qed.

(** C6, the part the code misses: Alice leaves while her socket is still
    connecting.  [handleLeave] closes the socket and finds no timeout to
    cancel, and the component unmounts.  The close event of that socket
    (code 1006) then runs [ws_onclose], which schedules a retry; the
    timeout fires, a new socket is created, and when it opens Alice
    joins the room again. *)
Theorem leave_while_connecting_reconnects :
  let s0 := init room1 MediaGranted mounted in
  let s1 := cleanup (handleLeave room1 s0) in
  let s2 := ws_onclose room1 0 1006 s1 in
  let s3 := timerFires room1 1 s2 in
  let s4 := ws_onopen room1 1 s3 in
  readyState <$> sockets s0 !! 0%nat = Some CONNECTING
  /\ readyState <$> sockets s1 !! 0%nat = Some CLOSING
  /\ wsRef s1 = None /\ timers s1 = ∅
  /\ timers s2 = {[ 1%positive := 2000 ]}
  /\ wsRef s3 = Some 1%nat
  /\ sent <$> sockets s4 !! 1%nat
     = Some [mkMessage "join" (Some "room1"%string) None (Some "Alice"%string) DUndefined].
Proof. by vm_compute. Qed.

(** ** The theorems at concrete inputs *)

(** The claim C1 as written fails: Alice, already present, is told that
    Bob joined and answers with an offer. *)
Lemma present_client_sends_offer :
  let s' := handleSignalingMessage room1 engAccept (userJoined "bob") alice0 in
  Some "bob"%string <> myUserId alice0
  /\ offersSent alice0 = []
  /\ offersSent s' = [mkMessage "offer" (Some "room1"%string) None None
                        (DObject (mkData (Some "v=0"%string) (Some "offer"%string) None None
                                         None None None None None None))]
  /\ ~ (offersSent s' = offersSent alice0).
Proof.
  vm_compute. repeat split; try discriminate.
Qed.

Lemma both_sides_initiate_witness :
  let offer := mkDesc (Some "v=0"%string) (Some "offer"%string) in
  let frame := mkMessage "offer" (Some "room1"%string) None None
                 (DObject (mkData (Some "v=0"%string) (Some "offer"%string) None None None
                                  None None None None None)) in
  (let s' := handleSignalingMessage room1 engAccept (userJoined "bob") alice0 in
   peersRef s' !! Some "bob"%string = Some 0%nat
   /\ sockets s' !! 0%nat
      = Some (ws_send frame (mkWs "room1" OPEN (Some "alice"%string) [])))
  /\ (let s' := handleSignalingMessage room1 engAccept
                  (existingParticipantsMsg ["bob"; "alice"; "carol"]%string) alice0 in
      (exists i ws' added, peersRef s' !! Some "bob"%string = Some i
         /\ pcs s' !! i = Some (pc_setLocal offer (newPeerConnection (Some "bob"%string) alice0))
         /\ sockets s' !! 0%nat = Some ws' /\ readyState ws' = OPEN
         /\ sent ws' = [] ++ added /\ frame ∈ added)
      /\ (exists i ws' added, peersRef s' !! Some "carol"%string = Some i
         /\ pcs s' !! i = Some (pc_setLocal offer (newPeerConnection (Some "carol"%string) alice0))
         /\ sockets s' !! 0%nat = Some ws' /\ readyState ws' = OPEN
         /\ sent ws' = [] ++ added /\ frame ∈ added)).
Proof.
  cbv zeta.
  destruct (both_sides_initiate room1 engAccept alice0 0%nat
              (mkWs "room1" OPEN (Some "alice"%string) []) eq_refl eq_refl eq_refl)
    as (A & B & _).
  split.
  - destruct (A (userJoined "bob") "bob"%string
                (mkDesc (Some "v=0"%string) (Some "offer"%string)))
      as (P & _ & S); try done.
  - split.
    + apply (B (existingParticipantsMsg ["bob"; "alice"; "carol"]%string)
               ["bob"; "alice"; "carol"]%string "bob"%string); try done.
      constructor.
    + apply (B (existingParticipantsMsg ["bob"; "alice"; "carol"]%string)
               ["bob"; "alice"; "carol"]%string "carol"%string); try done.
      do 2 constructor. constructor.
Defined.

(** The claim C2 as written fails.  Bob's candidate reaches Alice before
    she has a PeerLink for him: it is dropped, nothing is queued, and
    after Bob's offer has set the remote description the connection has
    no candidate.  And once Alice has offered to Bob, his candidate is
    handed to the connection although no remote description is set. *)
Lemma ice_candidate_is_not_queued :
  let s1 := handleSignalingMessage room1 engStrict iceFromBob alice0 in
  let s2 := handleSignalingMessage room1 engStrict offerFromBob s1 in
  let s3 := handleSignalingMessage room1 engAccept iceFromBob aliceOffered in
  peersRef alice0 !! Some "bob"%string = None
  /\ s1 = alice0
  /\ peersRef s2 !! Some "bob"%string = Some 0%nat
  /\ remoteDescription <$> pcs s2 !! 0%nat = Some (Some (sessionDescriptionOf (sdpData "offer")))
  /\ iceCandidates <$> pcs s2 !! 0%nat = Some []
  /\ remoteDescription <$> pcs aliceOffered !! 0%nat = Some None
  /\ iceCandidates <$> pcs s3 !! 0%nat = Some [iceOf iceData].
Proof. by vm_compute. Qed.

Lemma ice_candidate_applied_at_once_or_dropped_witness :
  handleSignalingMessage room1 engStrict iceFromBob alice0 = alice0
  /\ handleSignalingMessage room1 engAccept iceFromBob aliceOffered
     = updatePc 0 (pc_addCandidate (iceOf iceData)) aliceOffered.
Proof.
  split.
  - apply (ice_candidate_applied_at_once_or_dropped room1 engStrict alice0 iceFromBob);
      reflexivity.
  - apply (proj2 (ice_candidate_applied_at_once_or_dropped room1 engAccept aliceOffered
                    iceFromBob eq_refl) 0%nat
             (mkPc (Some "bob"%string) []
                   (Some (mkDesc (Some "v=0"%string) (Some "offer"%string))) None [] false)
             (mkData None None
                (Some "candidate:1 1 UDP 2130706431 192.168.1.1 54321 typ host"%string)
                (Some 0) (Some "0"%string) None None None None None));
      reflexivity.
Defined.

Lemma duplicate_identity_is_noop_witness :
  handleSignalingMessage room1 engAccept (userJoined "bob") aliceOffered = aliceOffered
  /\ handleSignalingMessage room1 engAccept (existingParticipantsMsg ["bob"; "bob"]%string)
       aliceOffered = aliceOffered
  /\ peersRef (handleSignalingMessage room1 engAccept
                 (existingParticipantsMsg ["carol"; "bob"]%string) aliceOffered)
       !! Some "bob"%string = Some 0%nat.
Proof.
  destruct (duplicate_identity_is_noop room1 engAccept aliceOffered) as (A & _ & C & D).
  assert (is_Some (peersRef aliceOffered !! Some "bob"%string)) as Hbob
    by (exists 0%nat; reflexivity).
  split; [|split].
  - apply A; [reflexivity|exact Hbob].
  - apply (C _ ["bob"; "bob"]%string); [reflexivity..|]. by repeat constructor.
  - rewrite (D _ ["carol"; "bob"]%string "bob"%string); [reflexivity..|exact Hbob].
Defined.

(** An enumeration that names a new identity twice creates one PeerLink
    and sends one offer. *)
Example repeated_entry_creates_one_link :
  let s' := handleSignalingMessage room1 engAccept
              (existingParticipantsMsg ["bob"; "bob"]%string) alice0 in
  length (pcs s') = 1%nat /\ length (offersSent s') = 1%nat.
Proof. by vm_compute. Qed.

Lemma offer_creates_answer_discards_witness :
  (let s' := handleSignalingMessage room1 engAccept offerFromBob alice0 in
   peersRef s' !! Some "bob"%string = Some 0%nat
   /\ pcs s' !! 0%nat
      = Some (mkPc (Some "bob"%string) []
                (Some (mkDesc (Some "v=0"%string) (Some "answer"%string)))
                (Some (mkDesc (Some "v=0"%string) (Some "offer"%string))) [] false)
   /\ sent <$> sockets s' !! 0%nat
      = Some [mkMessage "answer" (Some "room1"%string) None None
                (DObject (mkData (Some "v=0"%string) (Some "answer"%string) None None None
                                 None None None None None))])
  /\ handleSignalingMessage room1 engAccept answerFromBob alice0 = alice0.
Proof.
  destruct (offer_creates_answer_discards room1 engAccept alice0) as [A B].
  split.
  - destruct (A offerFromBob) as (_ & P & _ & N); [reflexivity..|].
    destruct (N 0%nat (mkWs "room1" OPEN (Some "alice"%string) [])
                (mkDesc (Some "v=0"%string) (Some "answer"%string)))
      as [Q R]; [reflexivity..|].
    simpl. split; [exact P|]. split; [exact Q|]. by rewrite R.
  - apply B; reflexivity.
Defined.



Lemma media_failure_still_joins_witness :
  let s1 := init room1 (MediaRejected "NotAllowedError" "Permission denied") mounted in
  error s1 = Some (ErrMediaAccess "Permission denied")
  /\ wsRef s1 = Some 0%nat
  /\ sockets (ws_onopen room1 0 s1) !! 0%nat
     = Some (mkWs "room1" OPEN None
               [mkMessage "join" (Some "room1"%string) None (Some "Alice"%string) DUndefined]).
Proof.
  destruct (media_failure_still_joins room1 mounted "NotAllowedError" "Permission denied")
    as (_ & _ & _ & A & _ & B & _ & C); [reflexivity| reflexivity | discriminate |].
  simpl. split; [exact A|]. split; [exact B|exact C].
Defined.

(** The claim C9 as written fails: a 200 response whose body is the JSON
    value [null] has no truthy [exists], yet the call throws instead of
    returning [false]. *)
Lemma null_body_throws :
  let r := Api.mkResponse 200 None (inl Api.JNull) in
  Api.ok r = true
  /\ Api.checkRoomExists v8NullRead (Api.FetchResolved r)
     = Api.Throws (Api.mkErr "TypeError" v8NullRead)
  /\ Api.checkRoomExists v8NullRead (Api.FetchResolved r)
     <> Api.Returns (Api.JBool false).
Proof. vm_compute. by repeat split. Qed.

Lemma checkRoomExists_outcomes_witness :
  Api.checkRoomExists v8NullRead (Api.FetchResolved (Api.mkResponse 404 None (inl Api.JNull)))
  = Api.Returns (Api.JBool false)
  /\ Api.checkRoomExists v8NullRead
       (Api.FetchResolved
          (Api.mkResponse 200 None (inl (Api.JObj [("room_id"%string, Api.JStr "r1")]))))
     = Api.Returns (Api.JBool false).
Proof.
  destruct (checkRoomExists_outcomes v8NullRead
              (Api.FetchResolved (Api.mkResponse 404 None (inl Api.JNull)))) as (A & _).
  destruct (checkRoomExists_outcomes v8NullRead
              (Api.FetchResolved
                 (Api.mkResponse 200 None
                    (inl (Api.JObj [("room_id"%string, Api.JStr "r1")])))))
    as (_ & B & _).
  split.
  - apply (A _ eq_refl). reflexivity.
  - destruct (B _ _ eq_refl eq_refl eq_refl) as [_ B']; [discriminate|].
    apply B'. intros v Hv. discriminate Hv.
Defined.

Lemma handleLeave_teardown_witness :
  let s' := handleLeave room1 aliceInCall in
  peersRef s' = ∅
  /\ pcClosed <$> pcs s' !! 0%nat = Some true
  /\ ended <$> tracks s' !! 0%nat = Some true
  /\ ended <$> tracks s' !! 1%nat = Some true
  /\ wsRef s' = None.
Proof.
  destruct (handleLeave_teardown room1 aliceInCall) as (A & B & C & D & _).
  simpl. split; [exact A|]. split; [|split; [|split; [|exact D]]].
  - by rewrite (B (Some "bob"%string) 0%nat
                  (mkPc (Some "bob"%string) [Some 0%nat; Some 1%nat]
                     (Some (mkDesc (Some "v=0"%string) (Some "offer"%string)))
                     None [] false) eq_refl eq_refl).
  - rewrite (C [0%nat; 1%nat] 0%nat (mkTrack Audio Microphone false false) eq_refl);
      [done|by left|done].
  - rewrite (C [0%nat; 1%nat] 1%nat (mkTrack Video Camera false false) eq_refl);
      [done|by right; left|done].
Defined.

Lemma toggleScreenShare_frame_witness :
  let s' := toggleScreenShare false (DisplayGranted false) MediaGranted aliceInCall in
  sockets s' = sockets aliceInCall
  /\ tracks s' !! 0%nat = Some (mkTrack Audio Microphone false false).
Proof.
  destruct (toggleScreenShare_frame false (DisplayGranted false) MediaGranted aliceInCall)
    as (A & _ & _ & D).
  simpl. split; [exact A|]. by apply D.
Defined.

(** * Further properties *)

(** ** The peer map and the connection store stay in step *)

Section PeerLinks.

Context (props : Props) (eng : Engine).

Lemma peerLinksWf_same s s' :
  pcs s' = pcs s -> peersRef s' = peersRef s -> peerLinksWf s -> peerLinksWf s'.
Proof. unfold peerLinksWf. by intros -> ->. Qed.

(** Updating one connection without touching its identity or its closed
    flag keeps the invariant. *)
Lemma peerLinksWf_updatePc i f s :
  (forall pc, pcUser (f pc) = pcUser pc /\ pcClosed (f pc) = pcClosed pc) ->
  peerLinksWf s -> peerLinksWf (updatePc i f s).
Proof.
  intros Hf [H1 H2]. split.
  - intros u j Hu. destruct (H1 u j Hu) as (pc & Hpc & Hus & Hcl).
    unfold updatePc. simpl. destruct (decide (i = j)) as [->|Hne].
    + exists (f pc). rewrite list_lookup_alter_eq, Hpc.
      destruct (Hf pc) as [-> ->]. done.
    + exists pc. by rewrite list_lookup_alter_ne.
  - intros j pc. unfold updatePc. simpl. destruct (decide (i = j)) as [->|Hne].
    + rewrite list_lookup_alter_eq. destruct (pcs s !! j) as [pc0|] eqn:Hj; [|done].
      simpl. intros [= <-]. destruct (Hf pc0) as [-> ->]. by apply H2.
    + rewrite list_lookup_alter_ne by done. apply H2.
Qed.

Lemma peerLinksWf_sendSignalingMessage m s :
  peerLinksWf s -> peerLinksWf (sendSignalingMessage m s).
Proof.
  apply peerLinksWf_same;
    [apply pcs_sendSignalingMessage|apply peersRef_sendSignalingMessage].
Qed.

(** A connection created for an identity that has none keeps it. *)
Lemma peerLinksWf_createPeerConnection uid s :
  peersRef s !! uid = None ->
  peerLinksWf s -> peerLinksWf (createPeerConnection uid s).2.
Proof.
  intros Hnone [H1 H2]. split; simpl.
  - intros u j. destruct (decide (uid = u)) as [->|Hne].
    + rewrite lookup_insert_eq. intros [= <-].
      exists (newPeerConnection u s). rewrite lookup_app_r by lia.
      by rewrite Nat.sub_diag.
    + rewrite lookup_insert_ne by done. intros Hu.
      destruct (H1 u j Hu) as (pc & Hpc & Hus & Hcl).
      exists pc. by rewrite (lookup_app_l_Some _ _ _ _ Hpc).
  - intros j pc Hj Hcl.
    destruct (decide (j < length (pcs s))%nat) as [Hlt|Hge].
    + rewrite lookup_app_l in Hj by done.
      destruct (decide (uid = pcUser pc)) as [->|Hne].
      * by rewrite (H2 j pc Hj Hcl) in Hnone.
      * rewrite lookup_insert_ne by done. by apply H2.
    + assert (j = length (pcs s)) as ->.
      { apply lookup_lt_Some in Hj. rewrite length_app in Hj. simpl in Hj. lia. }
      rewrite lookup_app_r in Hj by lia. rewrite Nat.sub_diag in Hj.
      injection Hj as <-. simpl. apply lookup_insert_eq.
Qed.

Lemma peerLinksWf_sendOffer i s :
  peerLinksWf s -> peerLinksWf (sendOffer props eng i s).
Proof.
  intros Hwf. unfold sendOffer. destruct (pcs s !! i); [|done].
  destruct (createOffer eng p); [|done].
  destruct (setLocalDescription eng p s0); [|done].
  apply peerLinksWf_sendSignalingMessage, peerLinksWf_updatePc; done.
Qed.

Lemma peerLinksWf_sendAnswer i d s :
  peerLinksWf s -> peerLinksWf (sendAnswer props eng i d s).
Proof.
  intros Hwf. unfold sendAnswer. destruct (pcs s !! i); [|done].
  destruct (setRemoteDescription eng p _); [|done].
  assert (peerLinksWf (updatePc i (pc_setRemote (sessionDescriptionOf d)) s)) as Hwf1
    by by apply peerLinksWf_updatePc.
  destruct (createAnswer eng _); [|done].
  destruct (setLocalDescription eng _ _); [|done].
  apply peerLinksWf_sendSignalingMessage, peerLinksWf_updatePc; done.
Qed.

Lemma peerLinksWf_existingParticipant s e :
  peerLinksWf s -> peerLinksWf (existingParticipant props eng s e).
Proof.
  intros Hwf. unfold existingParticipant.
  case_decide; [done|]. case_decide as Hin; [done|].
  simpl. apply peerLinksWf_sendOffer.
  apply (peerLinksWf_createPeerConnection (Some e) s); [|done].
  destruct (peersRef s !! Some e) eqn:He; [|done]. exfalso. apply Hin. by eexists.
Qed.

Lemma peerLinksWf_userLeft m s :
  peerLinksWf s -> peerLinksWf (handleUserLeft m s).
Proof.
  intros [H1 H2]. unfold handleUserLeft.
  apply (peerLinksWf_same
           (match peersRef s !! sender_id m with
            | Some i => set_peersRef (delete (sender_id m) (peersRef s))
                          (updatePc i pc_close s)
            | None => s
            end)); [done|done|].
  destruct (peersRef s !! sender_id m) as [i|] eqn:Hi; [|done].
  destruct (H1 _ _ Hi) as (pc & Hpc & Hus & Hcl).
  split; simpl.
  - intros u j. destruct (decide (sender_id m = u)) as [<-|Hne].
    + by rewrite lookup_delete_eq.
    + rewrite lookup_delete_ne by done. intros Hu.
      destruct (H1 u j Hu) as (pc' & Hpc' & Hus' & Hcl').
      exists pc'. rewrite list_lookup_alter_ne; [done|].
      intros ->. rewrite Hpc in Hpc'. injection Hpc' as <-. congruence.
  - intros j pc'. destruct (decide (i = j)) as [<-|Hne].
    + rewrite list_lookup_alter_eq, Hpc. simpl. by intros [= <-].
    + rewrite list_lookup_alter_ne by done. intros Hj Hcl'.
      rewrite lookup_delete_ne; [by apply H2|].
      intros Heq. specialize (H2 j pc' Hj Hcl').
      rewrite <- Heq, Hi in H2. congruence.
Qed.

Lemma peerLinksWf_forEachPeer f s :
  (forall pc, pcUser (f pc) = pcUser pc /\ pcClosed (f pc) = pcClosed pc) ->
  peerLinksWf s -> peerLinksWf (forEachPeer f s).
Proof.
  intros Hf [H1 H2]. split.
  - intros u j Hu. destruct (H1 u j Hu) as (pc & Hpc & Hus & Hcl).
    rewrite lookup_forEachPeer, Hpc. simpl.
    case_decide; [|by exists pc]. exists (f pc). destruct (Hf pc) as [-> ->]. done.
  - intros j pc. rewrite lookup_forEachPeer.
    destruct (pcs s !! j) as [pc0|] eqn:Hj; [|done]. simpl.
    case_decide; intros [= <-]; [|by apply H2].
    destruct (Hf pc0) as [-> ->]. by apply H2.
Qed.

(** Two identities never share a connection. *)
Lemma peerLinksWf_injective s u v i :
  peerLinksWf s -> peersRef s !! u = Some i -> peersRef s !! v = Some i -> u = v.
Proof.
  intros [H1 _] Hu Hv.
  destruct (H1 u i Hu) as (pc & Hpc & <- & _).
  destruct (H1 v i Hv) as (pc' & Hpc' & <- & _). congruence.
Qed.

Lemma peerLinksWf_mounted : peerLinksWf mounted.
Proof.
  split; [intros u i Hu; cbn in Hu; by rewrite lookup_empty in Hu
         |by intros [|i] pc Hpc].
Qed.

Lemma peerLinksWf_handleSignalingMessage m s :
  peerLinksWf s -> peerLinksWf (handleSignalingMessage props eng m s).
Proof.
  intros Hwf. unfold handleSignalingMessage.
  destruct (fromSelf m s); [done|].
  repeat (match goal with |- context [String.eqb ?a ?b] => destruct (String.eqb a b) end);
    try done.
  - unfold handleUserJoined. destruct (truthy _); [|done]. simpl.
    case_decide; [done|]. case_decide as Hin; [done|].
    simpl. apply peerLinksWf_sendOffer.
    apply (peerLinksWf_createPeerConnection (joinedUserId m) s); [|done].
    destruct (peersRef s !! joinedUserId m) eqn:He; [|done].
    exfalso. apply Hin. by eexists.
  - unfold handleOffer. destruct (peersRef s !! sender_id m) eqn:Hs.
    + by apply peerLinksWf_sendAnswer.
    + simpl. apply peerLinksWf_sendAnswer.
      by apply (peerLinksWf_createPeerConnection (sender_id m) s).
  - unfold handleAnswer. destruct (peersRef s !! sender_id m); [|done].
    destruct (pcs s !! n); [|done]. destruct (setRemoteDescription eng _ _); [|done].
    by apply peerLinksWf_updatePc.
  - unfold handleIceCandidate. destruct (peersRef s !! sender_id m); [|done].
    destruct (pcs s !! n); [|done].
    destruct (data m); try done; destruct (addIceCandidate eng _ _); try done;
      by apply peerLinksWf_updatePc.
  - by apply peerLinksWf_userLeft.
  - unfold handleConnected. apply (peerLinksWf_same s); [|by destruct (wsRef s)|done].
    by destruct (wsRef s).
  - unfold handleExistingParticipants.
    destruct (optField d_participants (data m)) as [ps|]; [|done].
    revert s Hwf. induction ps as [|e ps IH]; intros s Hwf; [done|].
    simpl. apply IH. by apply peerLinksWf_existingParticipant.
  - unfold handleJoin. destruct (user_id m); [|done]. by destruct (_ && _).
  - unfold handleEmoji. destruct (optField d_emoji (data m)); [|done].
    by destruct (truthy _).
  - unfold handleMuteStatus. by destruct (_ && _).
Qed.

(** The peer map and the connection store stay in step.  At mount the
    invariant [peerLinksWf] holds, and every signaling message, of any
    type and content, keeps it: each key of the peer map names an open
    connection created for that identity, every open connection is the
    one its identity maps to, and so no two identities share a
    connection.  Screen sharing keeps it as well. *)
Theorem peer_links_stay_in_step :
  peerLinksWf mounted
  /\ (forall m s, peerLinksWf s -> peerLinksWf (handleSignalingMessage props eng m s))
  /\ (forall captured dm um s,
        peerLinksWf s -> peerLinksWf (toggleScreenShare captured dm um s))
  /\ (forall m s u v i, peerLinksWf s ->
        peersRef (handleSignalingMessage props eng m s) !! u = Some i ->
        peersRef (handleSignalingMessage props eng m s) !! v = Some i -> u = v).
Proof.
  split; [apply peerLinksWf_mounted|].
  split; [apply peerLinksWf_handleSignalingMessage|split].
  - intros captured dm um s Hwf.
    destruct (pcs_toggleScreenShare captured dm um s) as [Hp|(X & v & Hp)].
    + eapply peerLinksWf_same; [exact Hp|apply peersRef_toggleScreenShare|done].
    + apply (peerLinksWf_same (forEachPeer (videoReplaced (tracks s ++ X) v) s));
        [done|by rewrite peersRef_toggleScreenShare|].
      by apply peerLinksWf_forEachPeer.
  - intros m s u v i Hwf. apply peerLinksWf_injective.
    by apply peerLinksWf_handleSignalingMessage.
Qed.

(** After [handleLeave], and after the unmount cleanup, no connection of
    the store is left open, provided the peer map and the store were in
    step. *)
Theorem no_connection_survives_teardown (s : State) :
  peerLinksWf s ->
  (forall i pc, pcs (handleLeave props s) !! i = Some pc -> pcClosed pc = true)
  /\ (forall i pc, pcs (cleanup s) !! i = Some pc -> pcClosed pc = true)
  /\ peerLinksWf (handleLeave props s) /\ peerLinksWf (cleanup s).
Proof.
  intros [H1 H2].
  assert (forall i pc, pcs (forEachPeer pc_close s) !! i = Some pc -> pcClosed pc = true)
    as Hclosed.
  { intros i pc. rewrite lookup_forEachPeer.
    destruct (pcs s !! i) as [pc0|] eqn:Hi; [|done]. simpl.
    case_decide as Hin; intros [= <-]; [done|].
    destruct (pcClosed pc0) eqn:Hcl; [done|]. exfalso. apply Hin.
    by apply (elem_of_map_img_2 _ (pcUser pc0)), H2. }
  assert (pcs (cleanup s) = pcs (forEachPeer pc_close s)) as Hcleanup.
  { unfold cleanup, stopTracks, forEachPeer, updateSocket, clearTimeout.
    repeat (cbn in *; case_match; simplify_eq); cbn in *; congruence. }
  assert (peersRef (cleanup s) = ∅) as Hempty.
  { unfold cleanup, stopTracks, forEachPeer, updateSocket, clearTimeout.
    repeat (cbn in *; case_match; simplify_eq); cbn in *; congruence. }
  assert (forall s', peersRef s' = ∅ ->
            (forall i pc, pcs s' !! i = Some pc -> pcClosed pc = true) ->
            peerLinksWf s') as Hwf.
  { intros s' He Hc. split.
    - intros u i. by rewrite He, lookup_empty.
    - intros i pc Hpc Hcl. by rewrite (Hc i pc Hpc) in Hcl. }
  split; [by rewrite pcs_handleLeave|]. split; [by rewrite Hcleanup|].
  split; apply Hwf.
  - apply peersRef_handleLeave.
  - by rewrite pcs_handleLeave.
  - done.
  - by rewrite Hcleanup.
Qed.

End PeerLinks.

(** ** The client never links to itself *)

Section NoSelfLink.

Context (props : Props) (eng : Engine).

Lemma existingParticipants_skip_self ps s me :
  myUserId s = Some me -> peersRef s !! Some me = None ->
  peersRef (foldl (existingParticipant props eng) s ps) !! Some me = None.
Proof.
  revert s. induction ps as [|e ps IH]; intros s Hme Hnone; [done|].
  simpl. apply IH; [by rewrite myUserId_existingParticipant|].
  unfold existingParticipant. case_decide as Hself; [done|]. case_decide; [done|].
  simpl. rewrite peersRef_sendOffer. simpl.
  rewrite lookup_insert_ne; [done|]. intros Heq. apply Hself. by rewrite Heq, Hme.
Qed.

(** Whatever message arrives (other than ['connected'], which changes the
    client's identity), a client whose identity is a non-empty string and
    who holds no PeerLink under its own identity still holds none
    afterwards: its own offers, its own ['user-joined'] and its own entry
    in ['existing-participants'] never make it connect to itself. *)
Theorem never_links_to_self (m : Message) (s : State) (me : string) :
  myUserId s = Some me -> me <> ""%string ->
  peersRef s !! Some me = None ->
  type m <> "connected"%string ->
  peersRef (handleSignalingMessage props eng m s) !! Some me = None.
Proof.
  intros Hme Hne Hnone Hty.
  assert (truthy (Some me) = true) as Htruthy
    by (simpl; by apply negb_true_iff, String.eqb_neq).
  unfold handleSignalingMessage.
  destruct (fromSelf m s) eqn:Hself; [done|].
  destruct (String.eqb (type m) "user-joined") eqn:E1.
  { unfold handleUserJoined. destruct (truthy (joinedUserId m)); [|done].
    cbn [negb].
    destruct (decide (joinedUserId m = myUserId s)) as [|Hj]; [done|].
    destruct (decide (is_Some (peersRef s !! joinedUserId m))); [done|].
    cbn [createPeerConnection]. rewrite peersRef_sendOffer. cbn.
    rewrite lookup_insert_ne; [done|]. intros Heq. apply Hj. by rewrite Heq, Hme. }
  destruct (String.eqb (type m) "offer") eqn:E2.
  { assert (sender_id m <> Some me) as Hsender.
    { intros Heq. apply String.eqb_eq in E2.
      unfold fromSelf in Hself. rewrite E2, Heq in Hself.
      unfold jsOr in Hself. rewrite Htruthy, Hme in Hself.
      rewrite bool_decide_eq_true_2 in Hself by done.
      rewrite Htruthy in Hself. by vm_compute in Hself. }
    unfold handleOffer. destruct (peersRef s !! sender_id m).
    - by rewrite peersRef_sendAnswer.
    - simpl. rewrite peersRef_sendAnswer. simpl. by rewrite lookup_insert_ne. }
  destruct (String.eqb (type m) "answer") eqn:E3.
  { unfold handleAnswer. destruct (peersRef s !! sender_id m); [|done].
    destruct (pcs s !! n); [|done]. by destruct (setRemoteDescription eng _ _). }
  destruct (String.eqb (type m) "ice-candidate") eqn:E4.
  { unfold handleIceCandidate. destruct (peersRef s !! sender_id m); [|done].
    destruct (pcs s !! n); [|done].
    destruct (data m); try done; by destruct (addIceCandidate eng _ _). }
  destruct (String.eqb (type m) "user-left") eqn:E5.
  { unfold handleUserLeft. simpl.
    destruct (peersRef s !! sender_id m); simpl; [|done].
    apply lookup_delete_None. by right. }
  destruct (String.eqb (type m) "connected") eqn:E6.
  { by apply String.eqb_eq in E6. }
  destruct (String.eqb (type m) "existing-participants") eqn:E7.
  { unfold handleExistingParticipants.
    destruct (optField d_participants (data m)); [|done].
    by apply existingParticipants_skip_self. }
  destruct (String.eqb (type m) "join") eqn:E8.
  { unfold handleJoin. destruct (user_id m); [|done].
    destruct (_ && _); exact Hnone. }
  destruct (String.eqb (type m) "emoji") eqn:E9.
  { unfold handleEmoji. destruct (optField d_emoji (data m)) as [e|]; [|done].
    destruct (truthy (Some e)); exact Hnone. }
  destruct (String.eqb (type m) "mute-status") eqn:E10; [|done].
  unfold handleMuteStatus. destruct (_ && _); exact Hnone.
Qed.

End NoSelfLink.

Lemma never_links_to_self_witness :
  peersRef (handleSignalingMessage room1 engAccept (msgFrom "offer" "alice" (sdpData "offer"))
              alice0) !! Some "alice"%string = None
  /\ peersRef (handleSignalingMessage room1 engAccept
                 (existingParticipantsMsg ["alice"; "bob"]%string) alice0)
       !! Some "alice"%string = None.
Proof.
  split; apply (never_links_to_self room1 engAccept _ alice0 "alice");
    first [ reflexivity | discriminate ].
Defined.

Lemma peer_links_stay_in_step_witness :
  peerLinksWf (handleSignalingMessage room1 engAccept offerFromBob
                 (handleSignalingMessage room1 engAccept (userJoined "carol") mounted)).
Proof.
  destruct (peer_links_stay_in_step room1 engAccept) as (A & B & _).
  apply B, B, A.
Defined.

Lemma no_connection_survives_teardown_witness :
  forallb pcClosed (pcs (handleLeave room1 aliceInCall)) = true.
Proof.
  assert (peerLinksWf aliceInCall) as Hwf.
  { unfold aliceInCall. do 2 apply peerLinksWf_handleSignalingMessage.
    eapply peerLinksWf_same; [..|exact peerLinksWf_mounted]; reflexivity. }
  destruct (no_connection_survives_teardown room1 aliceInCall Hwf) as (A & _).
  apply forallb_forall. intros pc Hin.
  apply list_elem_of_In, list_elem_of_lookup in Hin as [i Hi]. by apply (A i).
Defined.

(** ** A participant leaves *)

Section UserLeft.

Context (props : Props) (eng : Engine).

Lemma handle_user_left m s :
  type m = "user-left"%string ->
  handleSignalingMessage props eng m s = if fromSelf m s then s else handleUserLeft m s.
Proof. intros H. unfold handleSignalingMessage. rewrite H. reflexivity. Qed.

(** On ['user-left'] (not from the client itself) everything kept under
    the message's [sender_id] goes: the PeerLink is closed and removed,
    and so are the remote stream, mute status and name.  What is kept
    under any other identity stays, nothing is sent, and the same message
    once more changes nothing.  The identity is read from [sender_id]
    only: for a frame that carries it in [user_id] alone, the entries
    under every string identity stay. *)
Theorem user_left_removes_that_peer (m : Message) (s : State) :
  type m = "user-left"%string -> fromSelf m s = false ->
  let s' := handleSignalingMessage props eng m s in
  (peersRef s' !! sender_id m = None /\ remoteStreams s' !! sender_id m = None
   /\ remoteMuteStatus s' !! sender_id m = None
   /\ remoteUsernames s' !! sender_id m = None)
  /\ (forall i pc, peersRef s !! sender_id m = Some i -> pcs s !! i = Some pc ->
        pcs s' !! i = Some (pc_close pc))
  /\ (forall v, v <> sender_id m ->
        peersRef s' !! v = peersRef s !! v /\ remoteStreams s' !! v = remoteStreams s !! v
        /\ remoteMuteStatus s' !! v = remoteMuteStatus s !! v
        /\ remoteUsernames s' !! v = remoteUsernames s !! v)
  /\ sockets s' = sockets s /\ timers s' = timers s /\ tracks s' = tracks s
  /\ handleSignalingMessage props eng m s' = s'.
Proof.
  intros Hty Hself. simpl. rewrite handle_user_left, Hself by done.
  assert (sockets (handleUserLeft m s) = sockets s /\ wsRef (handleUserLeft m s) = wsRef s)
    as [Hsock Hws].
  { unfold handleUserLeft. by destruct (peersRef s !! sender_id m). }
  assert (fromSelf m (handleUserLeft m s) = false) as Hself'.
  { unfold fromSelf, myUserId, currentSocket in *. by rewrite Hsock, Hws. }
  assert (peersRef (handleUserLeft m s) !! sender_id m = None) as Hgone.
  { unfold handleUserLeft. simpl. destruct (peersRef s !! sender_id m) eqn:Hp; simpl.
    - apply lookup_delete_eq.
    - done. }
  split; [|split; [|split; [|split; [done|split; [|split]]]]].
  - split; [done|]. unfold handleUserLeft. simpl.
    repeat split; apply lookup_delete_eq.
  - intros i pc Hi Hpc. unfold handleUserLeft. rewrite Hi. simpl.
    by rewrite list_lookup_alter_eq, Hpc.
  - intros v Hv. unfold handleUserLeft. simpl.
    destruct (peersRef s !! sender_id m); simpl;
      rewrite ?lookup_delete_ne by done; done.
  - unfold handleUserLeft. by destruct (peersRef s !! sender_id m).
  - unfold handleUserLeft. by destruct (peersRef s !! sender_id m).
  - rewrite handle_user_left, Hself' by done.
    unfold handleUserLeft at 1. rewrite Hgone.
    rewrite !delete_id; [by destruct (handleUserLeft m s)|..];
      unfold handleUserLeft; simpl; apply lookup_delete_eq.
Qed.

End UserLeft.

(** ** Messages that only concern the display *)

Section DisplayMessages.

Context (props : Props) (eng : Engine).

(** A message whose type is none of the seven negotiation and session
    types never touches the peer map, the connections, the sockets, the
    timers, the tracks or the reconnection counter; and unless it is
    ['join'], ['emoji'] or ['mute-status'] (so for ['error'] and for any
    unknown type) the state is left exactly as it was. *)
Theorem display_messages_touch_no_connection (m : Message) (s : State) :
  type m <> "user-joined"%string -> type m <> "offer"%string ->
  type m <> "answer"%string -> type m <> "ice-candidate"%string ->
  type m <> "user-left"%string -> type m <> "connected"%string ->
  type m <> "existing-participants"%string ->
  let s' := handleSignalingMessage props eng m s in
  (peersRef s' = peersRef s /\ pcs s' = pcs s /\ sockets s' = sockets s
   /\ wsRef s' = wsRef s /\ timers s' = timers s /\ tracks s' = tracks s
   /\ localStreamRef s' = localStreamRef s
   /\ reconnectAttemptsRef s' = reconnectAttemptsRef s)
  /\ (type m <> "join"%string -> type m <> "emoji"%string ->
      type m <> "mute-status"%string -> s' = s).
Proof.
  intros H1 H2 H3 H4 H5 H6 H7. simpl. unfold handleSignalingMessage.
  apply String.eqb_neq in H1, H2, H3, H4, H5, H6, H7.
  rewrite H1, H2, H3, H4, H5, H6, H7.
  destruct (fromSelf m s); [done|]. split.
  - destruct (String.eqb (type m) "join").
    { unfold handleJoin. destruct (user_id m); [|done]. by destruct (_ && _). }
    destruct (String.eqb (type m) "emoji").
    { unfold handleEmoji. destruct (optField d_emoji (data m)); [|done].
      by destruct (truthy _). }
    destruct (String.eqb (type m) "mute-status"); [|done].
    unfold handleMuteStatus. by destruct (_ && _).
  - intros H8 H9 H10. apply String.eqb_neq in H8, H9, H10. by rewrite H8, H9, H10.
Qed.

End DisplayMessages.

Lemma user_left_removes_that_peer_witness :
  let s' := handleSignalingMessage room1 engAccept (msgFrom "user-left" "bob" DUndefined)
              aliceInCall in
  peersRef s' !! Some "bob"%string = None
  /\ pcClosed <$> pcs s' !! 0%nat = Some true.
Proof.
  destruct (user_left_removes_that_peer room1 engAccept
              (msgFrom "user-left" "bob" DUndefined) aliceInCall eq_refl eq_refl)
    as ((A & _) & B & _).
  simpl. split; [exact A|].
  by rewrite (B 0%nat (mkPc (Some "bob"%string) [Some 0%nat; Some 1%nat]
                         (Some (mkDesc (Some "v=0"%string) (Some "offer"%string)))
                         None [] false) eq_refl eq_refl).
Defined.

Lemma display_messages_touch_no_connection_witness :
  handleSignalingMessage room1 engAccept (msgFrom "error" "bob" DUndefined) aliceInCall
  = aliceInCall
  /\ handleSignalingMessage room1 engAccept (msgFrom "ping" "bob" DUndefined) aliceInCall
     = aliceInCall.
Proof.
  split.
  - apply (display_messages_touch_no_connection room1 engAccept
             (msgFrom "error" "bob" DUndefined) aliceInCall); discriminate.
  - apply (display_messages_touch_no_connection room1 engAccept
             (msgFrom "ping" "bob" DUndefined) aliceInCall); discriminate.
Defined.

(** ** The signaling transport and the media are independent *)

Section Transport.

Context (props : Props).

Ltac transport_cases :=
  unfold retryConnection, timerFires, ws_onclose, ws_onopen, ws_onerror, connectWebSocket,
    scheduleReconnect, clearTimeout, updateSocket;
  repeat (cbn in *; case_match; simplify_eq); cbn in *; try congruence.

(** Losing, retrying and re-establishing the signaling connection never
    touches a PeerLink, a track or a remote stream: the socket's open,
    error and close events, a firing reconnection timeout, a new
    connection attempt and the retry button all leave the peer map, the
    connection store, the track store, the local stream and the remote
    streams as they were. *)
Theorem transport_events_keep_media (s : State) :
  (forall i, mediaOf (ws_onopen props i s) = mediaOf s)
  /\ (forall i code, mediaOf (ws_onclose props i code s) = mediaOf s)
  /\ mediaOf (ws_onerror s) = mediaOf s
  /\ (forall id, mediaOf (timerFires props id s) = mediaOf s)
  /\ mediaOf (connectWebSocket props s) = mediaOf s
  /\ mediaOf (retryConnection props s) = mediaOf s.
Proof.
  unfold mediaOf. repeat split; intros; transport_cases.
Qed.


End Transport.


(** ** Unmounting *)

Section Unmount.

Context (props : Props).

Lemma imap_idemp {A} (g : nat -> A -> A) (l : list A) :
  (forall i x, g i (g i x) = g i x) -> imap g (imap g l) = imap g l.
Proof.
  intros Hg. apply list_eq. intros i. rewrite !list_lookup_imap.
  destruct (l !! i); simpl; by rewrite ?Hg.
Qed.

Lemma imap_noop {A} (g : nat -> A -> A) (l : list A) :
  (forall i x, g i x = x) -> imap g l = l.
Proof.
  intros Hg. apply list_eq. intros i. rewrite list_lookup_imap.
  destruct (l !! i); simpl; by rewrite ?Hg.
Qed.

(** The unmount cleanup that follows [handleLeave] finds nothing left to
    do: it only clears the [isMounted] and [initialized] flags. *)
Theorem cleanup_after_leave_only_clears_flags (s : State) :
  cleanup (handleLeave props s)
  = set_initialized false (set_isMounted false (handleLeave props s)).
Proof.
  pose proof (peersRef_handleLeave props s) as Hp.
  pose proof (wsRef_handleLeave props s) as Hw.
  assert (match localStreamRef (handleLeave props s) with
          | Some ls => imap (fun i t => if decide (i ∈ ls) then track_stop t else t)
                         (tracks (handleLeave props s))
          | None => tracks (handleLeave props s)
          end = tracks (handleLeave props s)) as Ht.
  { assert (localStreamRef (handleLeave props s) = localStreamRef s) as ->.
    { unfold handleLeave, stopTracks, forEachPeer, updateSocket, clearTimeout.
      repeat (cbn in *; case_match; simplify_eq); cbn in *; congruence. }
    rewrite tracks_handleLeave. destruct (localStreamRef s) as [ls|]; [|done].
    unfold stopTracks. simpl. apply imap_idemp.
    intros i t. by case_decide. }
  assert (match reconnectTimeoutRef (handleLeave props s) with
          | Some id => delete id (timers (handleLeave props s))
          | None => timers (handleLeave props s)
          end = timers (handleLeave props s)) as Htm.
  { assert (reconnectTimeoutRef (handleLeave props s) = reconnectTimeoutRef s) as ->.
    { unfold handleLeave, stopTracks, forEachPeer, updateSocket, clearTimeout.
      repeat (cbn in *; case_match; simplify_eq); cbn in *; congruence. }
    rewrite timers_handleLeave. destruct (reconnectTimeoutRef s); [|done].
    apply delete_delete_eq. }
  destruct (handleLeave props s) as
    [tr pc so tm nx ws pr ls rt ra im ini ic il iss sw er rs rm ru fe al].
  simpl in *. subst ws pr.
  unfold cleanup, stopTracks, forEachPeer, clearTimeout. simpl.
  assert (imap (fun i p => if decide (i ∈ (map_img (∅ : gmap (option string) nat) : gset nat))
                           then pc_close p else p) pc = pc) as Hpc.
  { apply imap_noop. intros i p. rewrite map_img_empty_L. by rewrite decide_False. }
  destruct ls as [l|]; destruct rt as [id|]; simpl in *;
    rewrite ?Hpc, ?Ht, ?Htm; reflexivity.
Qed.

(** The cleanup closes the signaling socket only when it is open.  A
    socket that is still connecting is dropped from [wsRef] but left to
    connect, and when it opens the ['join'] frame is sent on it. *)
Theorem cleanup_leaves_connecting_socket (s : State) (i : nat) (ws : WebSocket) :
  wsRef s = Some i -> sockets s !! i = Some ws ->
  wsRef (cleanup s) = None
  /\ isMounted (cleanup s) = false
  /\ sockets (cleanup s) !! i
     = Some (if decide (readyState ws = OPEN) then ws_close ws else ws)
  /\ (readyState ws = CONNECTING ->
      sockets (ws_onopen props i (cleanup s)) !! i
      = Some (ws_send (mkMessage "join" (Some (roomId props)) None (Some (username props)) DUndefined)
                (ws_setReadyState OPEN ws))).
Proof.
  intros Hw Hs.
  assert (sockets (cleanup s) !! i
          = Some (if decide (readyState ws = OPEN) then ws_close ws else ws)) as Hsock.
  { unfold cleanup, stopTracks, forEachPeer, updateSocket, clearTimeout.
    repeat (cbn in *; case_match; simplify_eq); cbn in *;
      repeat match goal with
             | H1 : ?x = Some ?a, H2 : ?x = Some ?b |- _ =>
                 rewrite H1 in H2; injection H2 as <-
             | H1 : ?x = Some ?a, H2 : ?x = None |- _ => by rewrite H1 in H2
             end;
      rewrite ?list_lookup_alter_eq;
      repeat match goal with H : sockets s !! _ = _ |- _ => rewrite H end; done. }
  split; [|split; [|split; [exact Hsock|]]].
  - unfold cleanup, stopTracks, forEachPeer, updateSocket, clearTimeout.
    repeat (cbn in *; case_match; simplify_eq); cbn in *; congruence.
  - unfold cleanup, stopTracks, forEachPeer, updateSocket, clearTimeout.
    repeat (cbn in *; case_match; simplify_eq); cbn in *; congruence.
  - intros Hc. unfold ws_onopen, updateSocket. simpl.
    rewrite !list_lookup_alter_eq, Hsock. simpl.
    rewrite decide_False by (rewrite Hc; discriminate). done.
Qed.

End Unmount.

Lemma cleanup_leaves_connecting_socket_witness :
  let s := init room1 MediaGranted mounted in
  sockets (cleanup s) !! 0%nat = Some (mkWs "room1" CONNECTING None [])
  /\ sent <$> sockets (ws_onopen room1 0 (cleanup s)) !! 0%nat
     = Some [mkMessage "join" (Some "room1"%string) None (Some "Alice"%string) DUndefined].
Proof.
  cbv zeta.
  destruct (cleanup_leaves_connecting_socket room1 (init room1 MediaGranted mounted) 0%nat
              (mkWs "room1" CONNECTING None []) eq_refl eq_refl) as (_ & _ & A & B).
  split; [exact A|]. by rewrite (B eq_refl).
Defined.

(** ** Screen sharing from a client without local media *)

Section NoMedia.

Context (props : Props) (eng : Engine).

Lemma noLocalMedia_same s s' :
  pcs s' = pcs s -> localStreamRef s' = localStreamRef s ->
  noLocalMedia s -> noLocalMedia s'.
Proof. unfold noLocalMedia. by intros -> ->. Qed.

Lemma noLocalMedia_updatePc i f s :
  (forall pc, senders (f pc) = senders pc) ->
  noLocalMedia s -> noLocalMedia (updatePc i f s).
Proof.
  intros Hf [Hl Hs]. split; [done|]. intros j pc. unfold updatePc. simpl.
  destruct (decide (i = j)) as [->|Hne].
  - rewrite list_lookup_alter_eq. destruct (pcs s !! j) as [pc0|] eqn:Hj; [|done].
    simpl. intros [= <-]. rewrite Hf. by apply (Hs j).
  - rewrite list_lookup_alter_ne by done. apply Hs.
Qed.

Lemma noLocalMedia_createPeerConnection uid s :
  noLocalMedia s -> noLocalMedia (createPeerConnection uid s).2.
Proof.
  intros [Hl Hs]. split; [done|]. simpl. intros j pc Hj.
  apply lookup_app_Some in Hj as [Hj|[_ Hj]]; [by apply (Hs j)|].
  destruct (j - length (pcs s))%nat; [|done]. injection Hj as <-.
  unfold newPeerConnection. simpl. by rewrite Hl.
Qed.

Lemma noLocalMedia_sendSignalingMessage m s :
  noLocalMedia s -> noLocalMedia (sendSignalingMessage m s).
Proof.
  apply noLocalMedia_same; [apply pcs_sendSignalingMessage|].
  unfold sendSignalingMessage. destruct (wsRef s); [|done].
  destruct (sockets s !! n); [|done]. by case_decide.
Qed.

Lemma noLocalMedia_sendOffer i s :
  noLocalMedia s -> noLocalMedia (sendOffer props eng i s).
Proof.
  intros H. unfold sendOffer. destruct (pcs s !! i); [|done].
  destruct (createOffer eng p); [|done].
  destruct (setLocalDescription eng p s0); [|done].
  by apply noLocalMedia_sendSignalingMessage, noLocalMedia_updatePc.
Qed.

Lemma noLocalMedia_sendAnswer i d s :
  noLocalMedia s -> noLocalMedia (sendAnswer props eng i d s).
Proof.
  intros H. unfold sendAnswer. destruct (pcs s !! i); [|done].
  destruct (setRemoteDescription eng p _); [|done].
  assert (noLocalMedia (updatePc i (pc_setRemote (sessionDescriptionOf d)) s)) as H1
    by by apply noLocalMedia_updatePc.
  destruct (createAnswer eng _); [|done].
  destruct (setLocalDescription eng _ _); [|done].
  by apply noLocalMedia_sendSignalingMessage, noLocalMedia_updatePc.
Qed.

Lemma noLocalMedia_handleSignalingMessage m s :
  noLocalMedia s -> noLocalMedia (handleSignalingMessage props eng m s).
Proof.
  intros H. unfold handleSignalingMessage.
  destruct (fromSelf m s); [done|].
  repeat (match goal with |- context [String.eqb ?a ?b] => destruct (String.eqb a b) end);
    try done.
  - unfold handleUserJoined. destruct (truthy _); [|done]. simpl.
    case_decide; [done|]. case_decide; [done|].
    simpl. by apply noLocalMedia_sendOffer, (noLocalMedia_createPeerConnection _ s).
  - unfold handleOffer. destruct (peersRef s !! sender_id m).
    + by apply noLocalMedia_sendAnswer.
    + simpl. by apply noLocalMedia_sendAnswer, (noLocalMedia_createPeerConnection _ s).
  - unfold handleAnswer. destruct (peersRef s !! sender_id m); [|done].
    destruct (pcs s !! n); [|done]. destruct (setRemoteDescription eng _ _); [|done].
    by apply noLocalMedia_updatePc.
  - unfold handleIceCandidate. destruct (peersRef s !! sender_id m); [|done].
    destruct (pcs s !! n); [|done].
    destruct (data m); try done; destruct (addIceCandidate eng _ _); try done;
      by apply noLocalMedia_updatePc.
  - unfold handleUserLeft.
    apply (noLocalMedia_same
             (match peersRef s !! sender_id m with
              | Some i => set_peersRef (delete (sender_id m) (peersRef s))
                            (updatePc i pc_close s)
              | None => s
              end)); [done|done|].
    destruct (peersRef s !! sender_id m); [|done].
    apply (noLocalMedia_same (updatePc n pc_close s)); [done|done|].
    by apply noLocalMedia_updatePc.
  - unfold handleConnected. apply (noLocalMedia_same s); [| |done]; by destruct (wsRef s).
  - unfold handleExistingParticipants.
    destruct (optField d_participants (data m)) as [ps|]; [|done].
    revert s H. induction ps as [|e ps IH]; intros s H; [done|].
    simpl. apply IH. unfold existingParticipant.
    case_decide; [done|]. case_decide; [done|].
    simpl. by apply noLocalMedia_sendOffer, (noLocalMedia_createPeerConnection _ s).
  - unfold handleJoin. destruct (user_id m); [|done]. by destruct (_ && _).
  - unfold handleEmoji. destruct (optField d_emoji (data m)); [|done].
    by destruct (truthy _).
  - unfold handleMuteStatus. by destruct (_ && _).
Qed.

(** A client whose camera and microphone were refused creates its
    PeerLinks without any sender, whatever messages arrive.  Sharing the
    screen then replaces no track on them, so the peers it is already
    linked to are sent nothing of the screen; only a PeerLink created
    after the share started carries the screen track. *)
Theorem screen_share_without_media_reaches_no_peer :
  (forall name message,
     noLocalMedia (init props (MediaRejected name message) mounted))
  /\ (forall m s, noLocalMedia s -> noLocalMedia (handleSignalingMessage props eng m s))
  /\ (forall dm s, noLocalMedia s -> pcs (startScreenShare dm s) = pcs s)
  /\ (forall s uid, noLocalMedia s ->
        senders (newPeerConnection uid (startScreenShare (DisplayGranted false) s))
        = [Some (length (tracks s))]).
Proof.
  split; [|split; [apply noLocalMedia_handleSignalingMessage|split]].
  - intros name message. split.
    + unfold init, connectWebSocket. simpl.
      destruct (String.eqb (roomId props) ""); reflexivity.
    + assert (pcs (init props (MediaRejected name message) mounted) = []) as ->; [|done].
      unfold init, connectWebSocket. simpl.
      destruct (String.eqb (roomId props) ""); reflexivity.
  - intros dm s [Hl Hs]. unfold startScreenShare.
    destruct dm as [withAudio|name message].
    + unfold replaceVideoOnPeers. simpl. rewrite Hl. simpl.
      apply list_eq. intros i. rewrite list_lookup_imap.
      destruct (pcs s !! i) as [pc|] eqn:Hi; [|done]. simpl.
      case_decide; [|done]. unfold videoReplaced. rewrite (Hs i pc Hi). simpl.
      f_equal. pose proof (Hs i pc Hi) as Hnil. destruct pc. simpl in Hnil.
      by subst.
    + unfold screenShareFailed. by destruct (String.eqb name "NotAllowedError").
  - intros s uid [Hl Hs]. unfold startScreenShare, replaceVideoOnPeers, newPeerConnection.
    simpl. by rewrite Hl.
Qed.

End NoMedia.

Lemma screen_share_without_media_reaches_no_peer_witness :
  let s := handleSignalingMessage room1 engAccept (userJoined "bob")
             (init room1 (MediaRejected "NotAllowedError" "Permission denied") mounted) in
  pcs (startScreenShare (DisplayGranted false) s) = pcs s
  /\ senders <$> pcs s !! 0%nat = Some [].
Proof.
  cbv zeta.
  destruct (screen_share_without_media_reaches_no_peer room1 engAccept) as (A & B & C & _).
  split; [by apply C, B, A|]. by vm_compute.
Defined.

(** ** The video grid *)

Lemma gridColumns_getGridCols n :
  gridColumns (getGridCols n)
  = if (n =? 0)%nat then 1%nat else if (n <=? 3)%nat then 2%nat
    else if (n <=? 8)%nat then 3%nat else 4%nat.
Proof.
  do 9 (destruct n as [|n]; [reflexivity|]). reflexivity.
Qed.

(** The grid of [n] remote tiles and the local one uses between one and
    four columns, never more columns than tiles, and never fewer columns
    for more tiles.  Up to nine tiles the number of columns is the side
    of the smallest square that holds them; from ten tiles on it is
    four. *)
Theorem grid_columns_fit_the_tiles (n : nat) :
  let k := gridColumns (getGridCols n) in
  (1 <= k <= 4)%nat /\ (k <= S n)%nat
  /\ (forall m, (n <= m)%nat -> (k <= gridColumns (getGridCols m))%nat)
  /\ ((S n <= 9)%nat -> (S n <= k * k)%nat /\ ((k - 1) * (k - 1) < S n)%nat)
  /\ ((10 <= S n)%nat -> k = 4%nat).
Proof.
  simpl. split; [|split; [|split; [|split]]].
  - rewrite gridColumns_getGridCols. repeat case_match; lia.
  - rewrite gridColumns_getGridCols.
    repeat case_match; try lia;
      repeat match goal with
             | H : (_ =? _)%nat = false |- _ => apply Nat.eqb_neq in H
             | H : (_ <=? _)%nat = false |- _ => apply Nat.leb_gt in H
             end; lia.
  - intros m Hm. rewrite !gridColumns_getGridCols.
    repeat case_match; try lia;
      repeat match goal with
             | H : (_ =? _)%nat = true |- _ => apply Nat.eqb_eq in H
             | H : (_ =? _)%nat = false |- _ => apply Nat.eqb_neq in H
             | H : (_ <=? _)%nat = true |- _ => apply Nat.leb_le in H
             | H : (_ <=? _)%nat = false |- _ => apply Nat.leb_gt in H
             end; lia.
  - intros Hn. do 9 (destruct n as [|n]; [vm_compute; lia|]). lia.
  - intros Hn. rewrite gridColumns_getGridCols.
    repeat case_match; try lia;
      repeat match goal with
             | H : (_ =? _)%nat = true |- _ => apply Nat.eqb_eq in H
             | H : (_ <=? _)%nat = true |- _ => apply Nat.leb_le in H
             end; lia.
Qed.

Lemma grid_columns_fit_the_tiles_witness :
  gridColumns (getGridCols 4) = 3%nat
  /\ (gridColumns (getGridCols 2) <= gridColumns (getGridCols 7))%nat.
Proof.
  destruct (grid_columns_fit_the_tiles 2) as (_ & _ & A & _).
  split; [reflexivity|]. apply A. lia.
Defined.

(** ** The tiles of the grid *)

Section Tiles.

Context (substring : nat -> nat -> string -> string).

Lemma remoteTile_Some s uid t :
  remoteTile substring s uid = Some t ->
  tile_userId t = uid /\ tile_isLocal t = false /\ tile_isVideoOff t = false
  /\ tile_stream t = remoteStreams s !! uid
  /\ tile_isMuted t = default false (remoteMuteStatus s !! uid)
  /\ (forall name, remoteUsernames s !! uid = Some name -> name <> ""%string ->
        tile_name t = name)
  /\ (forall u, uid = Some u -> truthy (remoteUsernames s !! uid) = false ->
        tile_name t = "User " +:+ substring 0 8 u).
Proof.
  unfold remoteTile. intros Ht.
  destruct (truthy (remoteUsernames s !! uid)) eqn:Htr.
  - destruct (remoteUsernames s !! uid) as [n|] eqn:Hn; [|done].
    simpl in Ht. injection Ht as <-. simpl. repeat split; try done.
    by intros name [= ->].
  - destruct uid as [u|]; [|done]. simpl in Ht. injection Ht as <-. simpl.
    repeat split; try done.
    + intros name Hn Hne. rewrite Hn in Htr. simpl in Htr.
      apply negb_false_iff, String.eqb_eq in Htr. done.
    + by intros u' [= ->].
Qed.

(** The grid shows the local tile first, under the user's own name and
    with the local mute and camera flags, and then one tile per
    participant, in order.  A remote tile carries the name received in
    that participant's ['join'] message, or, when none is stored, the
    word [User] and what the browser's [substring(0, 8)] returns for the
    identity; it shows the last mute status received (unmuted when none
    was) and never shows the camera as off.  The list can be computed
    whenever every participant's identity is a string. *)
Theorem grid_tiles (username : string) (c : Call) (participants : list (option string)) :
  (Forall is_Some participants ->
     is_Some (getAllParticipants substring username c participants))
  /\ (forall tiles, getAllParticipants substring username c participants = Some tiles ->
        length tiles = S (length participants)
        /\ tiles !! 0%nat
           = Some (mkTile (Some "local"%string) username (localStreamRef (st c)) true
                          (isMuted c) (isVideoOff c))
        /\ (forall k uid, participants !! k = Some uid ->
              exists t, tiles !! S k = Some t
                /\ tile_userId t = uid /\ tile_isLocal t = false
                /\ tile_isVideoOff t = false
                /\ tile_stream t = remoteStreams (st c) !! uid
                /\ tile_isMuted t = default false (remoteMuteStatus (st c) !! uid)
                /\ (forall name, remoteUsernames (st c) !! uid = Some name ->
                      name <> ""%string -> tile_name t = name)
                /\ (forall u, uid = Some u ->
                      truthy (remoteUsernames (st c) !! uid) = false ->
                      tile_name t = "User " +:+ substring 0 8 u))).
Proof.
  split.
  - intros Hall. unfold getAllParticipants.
    assert (is_Some (mapM (remoteTile substring (st c)) participants))
      as [remote ->]; [|by eexists].
    apply mapM_is_Some. eapply Forall_impl; [exact Hall|].
    intros uid [u ->]. unfold compose, remoteTile.
    destruct (truthy (remoteUsernames (st c) !! Some u)) eqn:Htr.
    + destruct (remoteUsernames (st c) !! Some u); [by eexists|done].
    + by eexists.
  - intros tiles. unfold getAllParticipants.
    destruct (mapM (remoteTile substring (st c)) participants) as [remote|] eqn:Hm;
      [|done].
    simpl. intros [= <-]. apply mapM_Some in Hm.
    split; [simpl; by rewrite <- (Forall2_length _ _ _ Hm)|]. split; [done|].
    intros k uid Hk.
    destruct (Forall2_lookup_l _ _ _ _ _ Hm Hk) as (t & Ht & Hrt).
    exists t. split; [done|]. by apply (remoteTile_Some (st c)).
Qed.

End Tiles.

Lemma grid_tiles_witness :
  length <$> getAllParticipants String.substring "Alice"
               (mkCall aliceInCall false false ∅) [Some "bob"%string] = Some 2%nat.
Proof.
  destruct (grid_tiles String.substring "Alice" (mkCall aliceInCall false false ∅)
              [Some "bob"%string])
    as [A B].
  destruct A as [tiles Ht]; [by repeat constructor|].
  rewrite Ht. simpl. f_equal. by apply B.
Defined.

(** ** The microphone and camera buttons *)

Section MicAndCamera.

Context (props : Props).

(** Without a local stream the microphone and camera buttons do nothing
    at all: no flag changes and no mute status is sent.  With one,
    [toggleMic] flips [isMuted], leaves every audio track of the local
    stream enabled exactly when the new [isMuted] is [false], changes the
    [enabled] flag of no other track, and hands one ['mute-status'] frame
    with the new value to the signaling socket; [toggleVideo] does the
    same for the video tracks and [isVideoOff] and sends nothing. *)
Theorem mic_and_camera_buttons (c : Call) :
  (localStreamRef (st c) = None -> toggleMic props c = c /\ toggleVideo c = c)
  /\ (forall ls, localStreamRef (st c) = Some ls ->
        let c' := toggleMic props c in
        isMuted c' = negb (isMuted c) /\ isVideoOff c' = isVideoOff c
        /\ st c' = sendSignalingMessage
                      (mkMessage "mute-status" (Some (roomId props)) None None
                         (DObject (mkData None None None None None None None None
                                          (Some (negb (isMuted c))) None)))
                      (st c)
        /\ (forall t, t ∈ tracksOfKind Audio (tracks (st c)) ls ->
              (t ∈ disabledTracks c' <-> isMuted c' = true))
        /\ (forall t, t ∉ tracksOfKind Audio (tracks (st c)) ls ->
              (t ∈ disabledTracks c' <-> t ∈ disabledTracks c)))
  /\ (forall ls, localStreamRef (st c) = Some ls ->
        let c' := toggleVideo c in
        isVideoOff c' = negb (isVideoOff c) /\ isMuted c' = isMuted c
        /\ st c' = st c
        /\ (forall t, t ∈ tracksOfKind Video (tracks (st c)) ls ->
              (t ∈ disabledTracks c' <-> isVideoOff c' = true))
        /\ (forall t, t ∉ tracksOfKind Video (tracks (st c)) ls ->
              (t ∈ disabledTracks c' <-> t ∈ disabledTracks c))).
Proof.
  split; [|split].
  - intros Hl. unfold toggleMic, toggleVideo. by rewrite Hl.
  - intros ls Hl. unfold toggleMic. rewrite Hl. simpl.
    split; [done|]. split; [done|]. split; [done|].
    unfold setEnabled.
    split; intros t Ht; destruct (isMuted c); simpl;
      rewrite ?elem_of_difference, ?elem_of_union, ?elem_of_list_to_set;
      intuition (auto; discriminate).
  - intros ls Hl. unfold toggleVideo. rewrite Hl. simpl.
    split; [done|]. split; [done|]. split; [done|].
    unfold setEnabled.
    split; intros t Ht; destruct (isVideoOff c); simpl;
      rewrite ?elem_of_difference, ?elem_of_union, ?elem_of_list_to_set;
      intuition (auto; discriminate).
Qed.

End MicAndCamera.

Lemma mic_and_camera_buttons_witness :
  let c := toggleMic room1 (mkCall aliceInCall false false ∅) in
  isMuted c = true /\ (0%nat ∈ disabledTracks c <-> isMuted c = true).
Proof.
  cbv zeta.
  destruct (mic_and_camera_buttons room1 (mkCall aliceInCall false false ∅))
    as (_ & A & _).
  destruct (A [0%nat; 1%nat] eq_refl) as (M & _ & _ & D & _).
  split; [exact M|]. apply D. by vm_compute; left.
Defined.

(** After a round of screen sharing the microphone track that the
    PeerLinks send (track 0) is no longer in the local stream: muting
    then disables the new microphone track only, and the track the peers
    receive stays enabled although ['mute-status'] says muted. *)
Example mute_after_sharing_misses_sent_track :
  let s := clickScreenShare (DisplayGranted false) MediaGranted aliceSharing in
  let c := toggleMic room1 (mkCall s false false ∅) in
  senders <$> pcs (st c) !! 0%nat = Some [Some 0%nat; Some 4%nat]
  /\ isMuted c = true
  /\ disabledTracks c = {[ 3%nat ]}
  /\ last (sockets (st c) ≫= sent)
     = Some (mkMessage "mute-status" (Some "room1"%string) None None
               (DObject (mkData None None None None None None None None (Some true) None))).
Proof. by vm_compute. Qed.

(** ** What the buttons send, and what the peers show *)

Section Relay.

Context (propsA propsB : Props) (eng : Engine).

Lemma sendSignalingMessage_open m s i ws :
  wsRef s = Some i -> sockets s !! i = Some ws -> readyState ws = OPEN ->
  sockets (sendSignalingMessage m s) !! i = Some (ws_send m ws).
Proof.
  intros Hw Hs Ho. unfold sendSignalingMessage. rewrite Hw, Hs.
  rewrite decide_True by done. cbn.
  by rewrite list_lookup_alter_eq, Hs.
Qed.

Lemma fromSelf_other m s a :
  sender_id m = Some a -> a <> ""%string -> myUserId s <> Some a ->
  fromSelf m s = false.
Proof.
  intros Hm Ha Hne. unfold fromSelf, jsOr. rewrite Hm.
  apply String.eqb_neq in Ha. cbn. rewrite Ha. cbn.
  rewrite bool_decide_false by congruence. by rewrite andb_false_r.
Qed.

(** The microphone button of a client with a local stream and an
    open socket puts one frame on the socket, and every client that is
    handed that frame, relayed with a non-empty sender identity that is
    not its own, records the sender's new
    [isMuted] value under that identity; the tile it then draws for the
    sender shows exactly that value. *)
Theorem mute_status_reaches_peers (c : Call) (ls : list nat) (i : nat) (ws : WebSocket) :
  localStreamRef (st c) = Some ls ->
  wsRef (st c) = Some i -> sockets (st c) !! i = Some ws -> readyState ws = OPEN ->
  exists m,
    sockets (st (toggleMic propsA c)) !! i = Some (ws_send m ws)
    /\ forall (a : string) (m' : Message) (sB : State),
         relayed a m m' -> a <> ""%string -> myUserId sB <> Some a ->
         let sB' := handleSignalingMessage propsB eng m' sB in
         remoteMuteStatus sB' !! Some a = Some (isMuted (toggleMic propsA c))
         /\ forall substring,
              exists t, remoteTile substring sB' (Some a) = Some t
                      /\ tile_isMuted t = isMuted (toggleMic propsA c).
Proof.
  intros Hl Hw Hs Ho.
  exists (muteMessage propsA (negb (isMuted c))). split.
  - unfold toggleMic. rewrite Hl. cbn. by apply sendSignalingMessage_open.
  - intros a m' sB (Ht & Hd & Hsend) Ha Hme sB'.
    assert (remoteMuteStatus sB' !! Some a = Some (isMuted (toggleMic propsA c))) as Hr.
    { subst sB'. unfold handleSignalingMessage.
      rewrite (fromSelf_other _ _ _ Hsend Ha Hme), Ht. cbn.
      unfold handleMuteStatus. rewrite Hsend, Hd.
      apply String.eqb_neq in Ha. cbn. rewrite Ha. cbn.
      rewrite bool_decide_false by congruence. cbn.
      rewrite lookup_insert_eq. unfold toggleMic. by rewrite Hl. }
    split; [exact Hr|]. intros substring.
    unfold remoteTile. cbn.
    destruct (truthy (remoteUsernames sB' !! Some a)) eqn:Hn.
    + destruct (remoteUsernames sB' !! Some a) as [n|] eqn:Hu; [|done].
      cbn. eexists. split; [done|]. cbn. by rewrite Hr.
    + cbn. eexists. split; [done|]. cbn. by rewrite Hr.
Qed.


(** A candidate the browser discovers on any of a client's
    connections is sent as one frame on the open socket, and the
    end-of-candidates event sends nothing.  A client handed that frame,
    relayed with the sender's identity, that holds a PeerLink for the
    sender and whose engine accepts the candidate, appends to that
    PeerLink a candidate equal to the discovered one in all three
    fields, and changes no other connection. *)
Theorem candidate_reaches_peer (c : IceCandidate) (s : State) (i : nat) (ws : WebSocket) :
  wsRef s = Some i -> sockets s !! i = Some ws -> readyState ws = OPEN ->
  pc_onicecandidate propsA None s = s
  /\ exists m,
       sockets (pc_onicecandidate propsA (Some c) s) !! i = Some (ws_send m ws)
       /\ forall (a : string) (m' : Message) (sB : State) (j : nat) (pc : PeerConnection),
            relayed a m m' -> a <> ""%string -> myUserId sB <> Some a ->
            peersRef sB !! Some a = Some j -> pcs sB !! j = Some pc ->
            addIceCandidate eng pc c = true ->
            let sB' := handleSignalingMessage propsB eng m' sB in
            pcs sB' !! j = Some (pc_addCandidate c pc)
            /\ forall k, k <> j -> pcs sB' !! k = pcs sB !! k.
Proof.
  intros Hw Hs Ho. split; [done|].
  eexists. split.
  - unfold pc_onicecandidate. by apply sendSignalingMessage_open.
  - intros a m' sB j pc (Ht & Hd & Hsend) Ha Hme Hp Hpc Hacc sB'.
    assert (sB' = updatePc j (pc_addCandidate c) sB) as ->.
    { subst sB'. rewrite handle_ice_candidate by done.
      rewrite (fromSelf_other _ _ _ Hsend Ha Hme).
      unfold handleIceCandidate. rewrite Hsend, Hp, Hpc, Hd. cbn.
      destruct c as [cc ci cm]. cbn. by rewrite Hacc. }
    cbn. split.
    + by rewrite list_lookup_alter_eq, Hpc.
    + intros k Hk. by rewrite list_lookup_alter_ne.
Qed.

End Relay.

Lemma mute_status_reaches_peers_witness :
  exists m ws,
    sockets (st (toggleMic room1 (mkCall aliceInCall false false ∅))) !! 0%nat
    = Some (ws_send m ws)
    /\ remoteMuteStatus
         (handleSignalingMessage room1 engAccept
            (mkMessage (type m) None (Some "alice"%string) None (data m)) mounted)
       !! Some "alice"%string = Some true.
Proof.
  edestruct (mute_status_reaches_peers room1 room1 engAccept
               (mkCall aliceInCall false false ∅) [0%nat; 1%nat] 0%nat)
    as (m & Hm & H); [by vm_compute ..|].
  exists m. eexists. split; [exact Hm|].
  destruct (H "alice"%string (mkMessage (type m) None (Some "alice"%string) None (data m))
              mounted) as (R & _); [done|done|done|exact R].
Defined.


Lemma candidate_reaches_peer_witness :
  exists m,
    sockets (pc_onicecandidate room1 (Some (iceOf iceData)) bob0) !! 0%nat
    = Some (ws_send m (mkWs "room1" OPEN (Some "bob"%string) []))
    /\ iceCandidates <$>
         pcs (handleSignalingMessage room1 engAccept
                (mkMessage (type m) None (Some "bob"%string) None (data m))
                aliceOffered) !! 0%nat
       = Some [iceOf iceData].
Proof.
  destruct (candidate_reaches_peer room1 room1 engAccept (iceOf iceData) bob0 0%nat
              (mkWs "room1" OPEN (Some "bob"%string) []) eq_refl eq_refl eq_refl)
    as (_ & m & S & H).
  exists m. split; [exact S|].
  destruct (H "bob"%string (mkMessage (type m) None (Some "bob"%string) None (data m))
              aliceOffered 0%nat
              (pc_setLocal (mkDesc (Some "v=0"%string) (Some "offer"%string))
                 (mkPc (Some "bob"%string) [] None None [] false)))
    as (P & _); try done.
  by rewrite P.
Defined.

(** ** The other requests of [api.js] *)

Section RoomRequests.

Variable nullReadMessage : string.

(** [getRoomInfo] (and [createRoom], which has the same body)
    returns the parsed body of a 2xx response and throws in every other
    case, the error being the rejection of [fetch] or of [json()]
    unchanged, or the HTTP error of the status.  On the same settled
    request [checkRoomExists] returns [exists || false] of the value
    [getRoomInfo] returns, unless that value is [null], where it throws;
    on a 404 it returns [false] where [getRoomInfo] throws; and whenever
    it throws, [getRoomInfo] throws as well or returns [null]. *)
Theorem room_info_and_room_check (f : Api.FetchResult) :
  (forall d, Api.getRoomInfo f = Api.Returns d <->
     exists r, f = Api.FetchResolved r /\ Api.ok r = true /\ Api.json r = inl d)
  /\ (forall e, Api.getRoomInfo f = Api.Throws e <->
        f = Api.FetchRejected e
        \/ exists r, f = Api.FetchResolved r
             /\ (Api.ok r = false /\ e = Api.httpError r
                 \/ Api.ok r = true /\ Api.json r = inr e))
  /\ Api.createRoom f = Api.getRoomInfo f
  /\ (forall d, Api.getRoomInfo f = Api.Returns d -> d <> Api.JNull ->
        Api.checkRoomExists nullReadMessage f
        = Api.Returns (Api.orFalse (Api.existsField d)))
  /\ (forall r, f = Api.FetchResolved r -> Api.status r = 404 ->
        Api.checkRoomExists nullReadMessage f = Api.Returns (Api.JBool false)
        /\ Api.getRoomInfo f = Api.Throws (Api.httpError r))
  /\ (forall e, Api.checkRoomExists nullReadMessage f = Api.Throws e ->
        Api.getRoomInfo f = Api.Returns Api.JNull
        \/ exists e', Api.getRoomInfo f = Api.Throws e').
Proof.
  repeat split.
  - unfold Api.getRoomInfo, Api.fetchJson. intros H.
    destruct f as [r|e]; [|done].
    destruct (Api.ok r) eqn:Hok; [|done]. cbn in H.
    destruct (Api.json r) as [d'|e'] eqn:Hj; [|done].
    exists r. by simplify_eq.
  - intros (r & -> & Hok & Hj). unfold Api.getRoomInfo, Api.fetchJson.
    by rewrite Hok, Hj.
  - unfold Api.getRoomInfo, Api.fetchJson. intros H.
    destruct f as [r|e']; [|left; congruence].
    right. exists r. split; [done|].
    destruct (Api.ok r) eqn:Hok; cbn in H.
    + destruct (Api.json r) as [d'|e''] eqn:Hj; [done|]. right. by simplify_eq.
    + left. by simplify_eq.
  - unfold Api.getRoomInfo, Api.fetchJson.
    intros [-> | (r & -> & [[Hok ->] | [Hok Hj]])]; [done| |].
    + by rewrite Hok.
    + by rewrite Hok, Hj.
  - intros d H Hd. unfold Api.getRoomInfo, Api.fetchJson in H.
    destruct f as [r|e]; [|done].
    destruct (Api.ok r) eqn:Hok; [|done]. cbn in H.
    destruct (Api.json r) as [d'|e'] eqn:Hj; [|done]. simplify_eq.
    unfold Api.checkRoomExists.
    assert ((Api.status r =? 404) = false) as ->.
    { unfold Api.ok in Hok. apply Z.eqb_neq. lia. }
    rewrite Hok, Hj. cbn. by destruct d.
  - subst f. unfold Api.checkRoomExists. by rewrite H0, Z.eqb_refl.
  - subst f. unfold Api.getRoomInfo, Api.fetchJson, Api.ok. by rewrite H0.
  - intros e H. unfold Api.getRoomInfo, Api.fetchJson.
    destruct f as [r|e']; [|right; by eexists].
    destruct (Api.ok r) eqn:Hok; [|right; by eexists]. cbn.
    destruct (Api.json r) as [d|e'] eqn:Hj; [|right; by eexists].
    left. unfold Api.checkRoomExists in H.
    destruct (Api.status r =? 404); [done|].
    rewrite Hok, Hj in H. cbn in H. by destruct d.
Qed.

End RoomRequests.

Lemma room_info_and_room_check_witness :
  let body := Api.JObj [("room_id"%string, Api.JStr "r1"); ("exists"%string, Api.JBool true)] in
  let f := Api.FetchResolved (Api.mkResponse 200 None (inl body)) in
  Api.getRoomInfo f = Api.Returns body
  /\ Api.checkRoomExists v8NullRead f = Api.Returns (Api.JBool true).
Proof.
  cbv zeta.
  destruct (room_info_and_room_check v8NullRead
              (Api.FetchResolved (Api.mkResponse 200 None
                 (inl (Api.JObj [("room_id"%string, Api.JStr "r1");
                                 ("exists"%string, Api.JBool true)])))))
    as (_ & _ & _ & C & _).
  split; [done|]. by rewrite (C _ eq_refl).
Defined.

(** ** The join form *)

Section JoinForm.

Context (trim : string -> string) (check : string -> Api.Outcome).

Lemma join_form_cases (a : App.AppState) :
  let a' := App.handleJoin trim check a in
  (a' = App.mkApp (App.roomId a) (App.username a) (App.joined a) false App.ErrMissingFields
   /\ (trim (App.roomId a) = ""%string \/ trim (App.username a) = ""%string))
  \/ (exists err, a' = App.mkApp (App.roomId a) (App.username a) (App.joined a) false err)
      /\ trim (App.roomId a) <> ""%string
  \/ (trim (App.roomId a) <> ""%string
      /\ exists v, check (trim (App.roomId a)) = Api.Returns v /\ Api.jsTruthy v = true
           /\ a' = App.mkApp (App.roomId a) (App.username a) true false App.NoError).
Proof.
  cbv zeta. unfold App.handleJoin.
  destruct (String.eqb (trim (App.roomId a)) "") eqn:Hr;
    [|destruct (String.eqb (trim (App.username a)) "") eqn:Hu]; cbn.
  - left. split; [done|]. left. by apply String.eqb_eq.
  - left. split; [done|]. right. by apply String.eqb_eq.
  - apply String.eqb_neq in Hr.
    destruct (check (trim (App.roomId a))) as [v|e] eqn:Hc.
    + destruct (Api.jsTruthy v) eqn:Hv.
      * right. right. split; [done|]. by exists v.
      * right. left. split; [by eexists|done].
    + right. left. split; [by eexists|done].
Qed.

(** [handleJoin] of the form always ends with [isJoining] cleared
    and never changes the fields.  It shows the call exactly when both
    trimmed fields are non-empty and [checkRoomExists], asked about the
    trimmed room identifier, returns a truthy value; the error is then
    cleared.  In every other case [joined] keeps its value and an error
    is shown: missing fields, room not found (a falsy value), or the
    message of what [checkRoomExists] threw.  The call is mounted with
    the room identifier as typed, not the trimmed one that was checked. *)
Theorem join_form (a : App.AppState) :
  let a' := App.handleJoin trim check a in
  let filled := negb (String.eqb (trim (App.roomId a)) "")
                && negb (String.eqb (trim (App.username a)) "") in
  App.isJoining a' = false
  /\ App.callProps a' = App.callProps a
  /\ (filled = false ->
        App.joined a' = App.joined a /\ App.error a' = App.ErrMissingFields)
  /\ (forall v, filled = true -> check (trim (App.roomId a)) = Api.Returns v ->
        if Api.jsTruthy v
        then App.joined a' = true /\ App.error a' = App.NoError
        else App.joined a' = App.joined a
             /\ App.error a' = App.ErrRoomNotFound (trim (App.roomId a)))
  /\ (forall e, filled = true -> check (trim (App.roomId a)) = Api.Throws e ->
        App.joined a' = App.joined a
        /\ exists msg, App.error a' = App.ErrJoinFailed msg /\ msg <> ""%string
             /\ (Api.err_message e <> ""%string -> msg = Api.err_message e))
  /\ (App.error a' = App.NoError <->
        filled = true
        /\ exists v, check (trim (App.roomId a)) = Api.Returns v /\ Api.jsTruthy v = true).
Proof.
  cbv zeta. unfold App.handleJoin, App.callProps.
  destruct (String.eqb (trim (App.roomId a)) "") eqn:Hr;
    [|destruct (String.eqb (trim (App.username a)) "") eqn:Hu]; cbn.
  1,2: split_and!; try done; split; [done | by intros [? _]].
  destruct (check (trim (App.roomId a))) as [v|e] eqn:Hc.
  - destruct (Api.jsTruthy v) eqn:Hv; cbn.
    + split_and!; try done.
      * intros v' _ E. simplify_eq. by rewrite Hv.
      * split; [by intros _; split; [|exists v]|done].
    + split_and!; try done.
      * intros v' _ E. simplify_eq. by rewrite Hv.
      * split; [done|]. intros [_ (v' & E & Hv')]. simplify_eq. congruence.
  - cbn. split_and!; try done.
    + intros e' _ E. simplify_eq. split; [done|].
      destruct (String.eqb (Api.err_message e') "") eqn:He; eexists; split; try done.
      * split; [done|]. apply String.eqb_eq in He. congruence.
      * split; [by apply String.eqb_neq|done].
    + split; [done|]. by intros [_ (v' & E & _)].
Qed.

End JoinForm.

Lemma join_form_witness :
  let a := App.mkApp " room1 " "Alice" false false App.NoError in
  let a' := App.handleJoin trimSpaces
              (fun _ => Api.Returns (Api.JBool true)) a in
  App.isJoining a' = false /\ App.joined a' = true /\ App.roomId a' = " room1 "%string.
Proof.
  cbv zeta.
  destruct (join_form trimSpaces (fun _ => Api.Returns (Api.JBool true))
              (App.mkApp " room1 " "Alice" false false App.NoError))
    as (J & _ & _ & R & _).
  split; [exact J|].
  destruct (R (Api.JBool true) eq_refl eq_refl) as (T & _).
  split; [exact T|]. by vm_compute.
Defined.

(** ** From the form to the call *)

Section FormToCall.

Context (trim : string -> string) (check : string -> Api.Outcome).

Hypothesis trim_empty : trim "" = ""%string.

(** When [handleJoin] of the form switches to the call, the room
    check returned a truthy value and the room identifier as typed is
    not empty.  The call mounted with these props therefore never takes
    the missing-room-id branch: whatever [getUserMedia] answers, [init]
    creates the signaling socket, and on open the socket sends ['join']
    with the room identifier and the user name as typed, not trimmed. *)
Theorem joined_call_sends_join (a : App.AppState) (um : MediaResult) (s : State) :
  App.joined a = false -> App.joined (App.handleJoin trim check a) = true ->
  initialized s = false -> isMounted s = true ->
  let props := App.callProps (App.handleJoin trim check a) in
  let s1 := init props um s in
  let i := length (sockets s) in
  (exists v, check (trim (App.roomId a)) = Api.Returns v /\ Api.jsTruthy v = true)
  /\ App.roomId a <> ""%string
  /\ wsRef s1 = Some i
  /\ error s1 = error (initializeLocalStream um s)
  /\ sockets (ws_onopen props i s1) !! i
     = Some (mkWs (App.roomId a) OPEN None
               [mkMessage "join" (Some (App.roomId a)) None
                          (Some (App.username a)) DUndefined]).
Proof.
  intros Hj Hj' Hinit Hmounted.
  destruct (join_form_cases trim check a)
    as [(E & _) | [((err & E) & _) | (Hr & v & Hv & Ht & E)]];
    try (rewrite E in Hj'; cbn in Hj'; congruence).
  assert (App.roomId a <> ""%string) as Hroom.
  { intros E0. rewrite E0, trim_empty in Hr. done. }
  assert (App.callProps (App.handleJoin trim check a)
          = mkProps (App.roomId a) (App.username a)) as -> by by rewrite E.
  cbv zeta. split; [by exists v|]. split; [done|].
  set (props := mkProps _ _).
  unfold init. rewrite Hinit.
  assert (isMounted (initializeLocalStream um (set_initialized true s)) = true) as ->
    by by destruct um.
  assert (String.eqb (roomId props) "" = false) as -> by by apply String.eqb_neq.
  cbn [andb negb].
  destruct (connectWebSocket_creates props
              (initializeLocalStream um (set_initialized true s)) Hroom)
    as (A & B & C & _).
  assert (sockets (initializeLocalStream um (set_initialized true s)) = sockets s) as Hs
    by by destruct um.
  rewrite Hs in A, B.
  split; [exact A|]. split; [rewrite C; by destruct um|].
  unfold ws_onopen, updateSocket. simpl.
  rewrite list_lookup_alter_eq. simpl.
  rewrite list_lookup_alter_eq, B. reflexivity.
Qed.

End FormToCall.

Lemma joined_call_sends_join_witness :
  let a := App.mkApp " room1 " "Alice" false false App.NoError in
  let check := fun _ : string =>
    Api.checkRoomExists v8NullRead
      (Api.FetchResolved (Api.mkResponse 200 None
         (inl (Api.JObj [("exists"%string, Api.JBool true)])))) in
  let props := App.callProps (App.handleJoin trimSpaces check a) in
  sockets (ws_onopen props 0 (init props MediaGranted mounted)) !! 0%nat
  = Some (mkWs " room1 " OPEN None
            [mkMessage "join" (Some " room1 "%string) None (Some "Alice"%string) DUndefined]).
Proof.
  cbv zeta.
  refine (proj2 (proj2 (proj2 (proj2
    (joined_call_sends_join trimSpaces
       (fun _ : string =>
          Api.checkRoomExists v8NullRead
            (Api.FetchResolved (Api.mkResponse 200 None
               (inl (Api.JObj [("exists"%string, Api.JBool true)])))))
       eq_refl
       (App.mkApp " room1 " "Alice" false false App.NoError) MediaGranted mounted
       eq_refl eq_refl eq_refl eq_refl))))).
Defined.

(** ** One negotiation, end to end *)

Section Handshake.

Context (propsA propsB : Props) (engA engB : Engine).

Lemma create_and_answer props eng uid d s iw ws answer :
  wsRef s = Some iw -> sockets s !! iw = Some ws -> readyState ws = OPEN ->
  let pc0 := newPeerConnection uid s in
  let remote := sessionDescriptionOf d in
  setRemoteDescription eng pc0 remote = true ->
  createAnswer eng (pc_setRemote remote pc0) = Some answer ->
  setLocalDescription eng (pc_setRemote remote pc0) answer = true ->
  let s' := sendAnswer props eng (createPeerConnection uid s).1 d
                       (createPeerConnection uid s).2 in
  peersRef s' !! uid = Some (length (pcs s))
  /\ pcs s' !! length (pcs s) = Some (pc_setLocal answer (pc_setRemote remote pc0))
  /\ sockets s' !! iw = Some (ws_send (descriptionMessage props "answer" answer) ws).
Proof.
  intros Hw Hs Ho pc0 remote Hr Hc Hl. simpl. unfold sendAnswer. simpl.
  rewrite lookup_app_r by lia. rewrite Nat.sub_diag. simpl.
  fold pc0. fold remote. rewrite Hr, Hc, Hl.
  unfold sendSignalingMessage. simpl.
  rewrite Hw, Hs. rewrite decide_True by done. simpl.
  repeat split.
  - apply lookup_insert_eq.
  - rewrite !list_lookup_alter_eq, lookup_app_r by lia.
    rewrite Nat.sub_diag. reflexivity.
  - rewrite list_lookup_alter_eq, Hs. reflexivity.
Qed.

Lemma sessionDescriptionOf_descriptionMessage props ty d :
  sessionDescriptionOf (data (descriptionMessage props ty d)) = d.
Proof. by destruct d. Qed.

(** One negotiation between two clients whose engines reject
    nothing and whose sockets are open.  A, told that B joined, sends an
    offer; B, handed A's offer, sends an answer; A is handed B's answer.
    Afterwards each side holds one PeerLink for the other, and the
    descriptions match crosswise: A's local description is the offer and
    is B's remote description, B's local description is the answer and
    is A's remote description. *)
Theorem negotiation_round_trip (a b : string) (sA sB : State)
    (iA iB : nat) (wsA wsB : WebSocket) (mJ : Message) :
  accepts engA -> accepts engB ->
  a <> ""%string -> b <> ""%string -> a <> b ->
  wsRef sA = Some iA -> sockets sA !! iA = Some wsA ->
  readyState wsA = OPEN -> userId wsA = Some a ->
  wsRef sB = Some iB -> sockets sB !! iB = Some wsB ->
  readyState wsB = OPEN -> userId wsB = Some b ->
  peersRef sA !! Some b = None -> peersRef sB !! Some a = None ->
  type mJ = "user-joined"%string -> joinedUserId mJ = Some b ->
  let sA1 := handleSignalingMessage propsA engA mJ sA in
  exists offer mO,
    sockets sA1 !! iA = Some (ws_send mO wsA) /\ type mO = "offer"%string
    /\ forall mO', relayed a mO mO' ->
         let sB1 := handleSignalingMessage propsB engB mO' sB in
         exists answer mA pcB,
           sockets sB1 !! iB = Some (ws_send mA wsB) /\ type mA = "answer"%string
           /\ peersRef sB1 !! Some a = Some (length (pcs sB))
           /\ pcs sB1 !! length (pcs sB) = Some pcB
           /\ remoteDescription pcB = Some offer
           /\ localDescription pcB = Some answer
           /\ forall mA', relayed b mA mA' ->
                let sA2 := handleSignalingMessage propsA engA mA' sA1 in
                exists pcA,
                  peersRef sA2 !! Some b = Some (length (pcs sA))
                  /\ pcs sA2 !! length (pcs sA) = Some pcA
                  /\ localDescription pcA = Some offer
                  /\ remoteDescription pcA = Some answer
                  /\ sockets sA2 = sockets sA1.
Proof.
  intros (HoA & _ & HlA & HrA & _) (_ & HaB & HlB & HrB & _) Ha Hb Hab
    HwA HsA HopA HuA HwB HsB HopB HuB HnA HnB Hty Hj sA1.
  assert (myUserId sA = Some a) as HmeA.
  { unfold myUserId, currentSocket. rewrite HwA. simpl. by rewrite HsA. }
  assert (myUserId sB = Some b) as HmeB.
  { unfold myUserId, currentSocket. rewrite HwB. simpl. by rewrite HsB. }
  destruct (HoA (newPeerConnection (Some b) sA)) as [offer Hoffer].
  destruct (create_and_offer propsA engA (Some b) sA iA wsA offer
              HwA HsA HopA Hoffer (HlA _ _)) as (P1 & P2 & P3 & P4).
  assert (sA1 = sendOffer propsA engA (createPeerConnection (Some b) sA).1
                          (createPeerConnection (Some b) sA).2) as HsA1.
  { subst sA1. rewrite handle_user_joined by done. unfold handleUserJoined.
    rewrite Hj. apply String.eqb_neq in Hb. cbn. rewrite Hb. cbn.
    rewrite decide_False by (rewrite HmeA; congruence).
    rewrite decide_False by (rewrite HnA; by intros [? ?]).
    reflexivity. }
  clearbody sA1. cbv zeta in P1, P2, P3, P4. rewrite <- HsA1 in P1, P2, P3, P4.
  exists offer, (descriptionMessage propsA "offer" offer).
  split; [done|]. split; [done|].
  intros mO' (HtO & HdO & HsO) sB1.
  destruct (HaB (pc_setRemote (sessionDescriptionOf (data mO'))
                   (newPeerConnection (Some a) sB))) as [answer Hanswer].
  destruct (create_and_answer propsB engB (Some a) (data mO') sB iB wsB answer
              HwB HsB HopB (HrB _ _) Hanswer (HlB _ _)) as (Q1 & Q2 & Q3).
  assert (sB1 = sendAnswer propsB engB (createPeerConnection (Some a) sB).1 (data mO')
                           (createPeerConnection (Some a) sB).2) as HsB1.
  { subst sB1. rewrite handle_offer; [|done|].
    - unfold handleOffer. by rewrite HsO, HnB.
    - apply (fromSelf_other _ _ a); [done|done|]. rewrite HmeB. congruence. }
  exists answer, (descriptionMessage propsB "answer" answer). eexists.
  split; [by rewrite HsB1|]. split; [done|].
  split; [by rewrite HsB1|]. split; [rewrite HsB1; exact Q2|].
  split; [cbn; by rewrite HdO, sessionDescriptionOf_descriptionMessage|].
  split; [done|].
  intros mA' (HtA & HdA & HsAn) sA2.
  assert (myUserId sA1 = Some a) as HmeA1.
  { rewrite HsA1, myUserId_sendOffer. exact HmeA. }
  assert (sA2 = updatePc (length (pcs sA)) (pc_setRemote answer) sA1) as HsA2.
  { subst sA2. rewrite handle_answer by done.
    rewrite (fromSelf_other _ _ b); [|done|done|rewrite HmeA1; congruence].
    unfold handleAnswer. rewrite HsAn, P1, P2, HrA.
    by rewrite HdA, sessionDescriptionOf_descriptionMessage. }
  eexists. rewrite HsA2. cbn.
  split; [done|].
  split; [by rewrite list_lookup_alter_eq, P2|].
  done.
Qed.

End Handshake.

Lemma negotiation_round_trip_witness :
  let sA1 := handleSignalingMessage room1 engAccept (userJoined "bob") alice0 in
  exists mO mA pcB pcA,
    sockets sA1 !! 0%nat
    = Some (ws_send mO (mkWs "room1" OPEN (Some "alice"%string) []))
    /\ pcs (handleSignalingMessage room1 engAccept (msgFrom "offer" "alice" (data mO)) bob0)
         !! 0%nat = Some pcB
    /\ sockets (handleSignalingMessage room1 engAccept (msgFrom "offer" "alice" (data mO)) bob0)
         !! 0%nat
       = Some (ws_send mA (mkWs "room1" OPEN (Some "bob"%string) []))
    /\ pcs (handleSignalingMessage room1 engAccept (msgFrom "answer" "bob" (data mA)) sA1)
         !! 0%nat = Some pcA
    /\ localDescription pcA = remoteDescription pcB
    /\ remoteDescription pcA = localDescription pcB.
Proof.
  cbv zeta.
  assert (accepts engAccept) as Hacc.
  { repeat split; intros; by eexists. }
  destruct (negotiation_round_trip room1 room1 engAccept engAccept
              "alice" "bob" alice0 bob0 0%nat 0%nat
              (mkWs "room1" OPEN (Some "alice"%string) [])
              (mkWs "room1" OPEN (Some "bob"%string) [])
              (userJoined "bob") Hacc Hacc)
    as (offer & mO & S1 & T1 & H); try done.
  exists mO.
  destruct (H (msgFrom "offer" "alice" (data mO)))
    as (answer & mA & pcB & S2 & T2 & _ & P2 & R2 & L2 & H2).
  { by rewrite <- T1. }
  exists mA, pcB.
  destruct (H2 (msgFrom "answer" "bob" (data mA))) as (pcA & _ & P & L & R & _).
  { by rewrite <- T2. }
  exists pcA. split; [exact S1|]. split; [exact P2|]. split; [exact S2|].
  split; [exact P|]. split; congruence.
Defined.
